(** * gitgraph: commit-activity heatmap (gitgraph/main.py)

    A shallow embedding of [days_range], [compute_color],
    [retrieve_repo_activity] and [draw_activity], together with the small
    part of the Python runtime they rest on: exceptions, [int / int] true
    division and the other binary64 operations the renderer performs,
    [str] of integers, [datetime.date] arithmetic and formatting, the
    conversion of a commit time to a date, and the head and the walk
    sorted by time of a [pygit2] repository. *)

From Stdlib Require Import ZArith List String Ascii Bool Lia Permutation.
From Stdlib Require Import Sorted.
From Stdlib Require Import DecimalString Finite.
From Stdlib Require SpecFloat QArith.
From stdpp Require Import base option strings gmap.

Import ListNotations.
Local Open Scope string_scope.
Local Open Scope list_scope.
Local Open Scope Z_scope.

(** ** Exceptions and results *)

Inductive exn : Type :=
| TypeError
| ValueError
| OverflowError
| ZeroDivisionError
| GitError.

Inductive result (A : Type) : Type :=
| Ok (a : A)
| Raise (e : exn).

Arguments Ok {A} a.
Arguments Raise {A} e.

Definition rbind {A B : Type} (r : result A) (k : A -> result B) : result B :=
  match r with
  | Ok a => k a
  | Raise e => Raise e
  end.

Notation "'let*' x ':=' r 'in' k" := (rbind r (fun x => k))
  (at level 10, x name, r at level 100, k at level 200).

(** ** Python floats (IEEE-754 binary64)

    A finite double is kept as the pair of an integer mantissa and a binary
    exponent; its value is [mant * 2 ^ expo].  Every operation computes the
    exact rational result and rounds it once, to nearest with ties to even,
    which is what CPython does for [int / int] and what the hardware does
    for [+] and [*] on doubles. *)

Module Float64.

Record t : Type := mk { mant : Z; expo : Z }.

Definition zero : t := mk 0 0.

(** Nearest integer to [N / D] (for [D > 0], [N >= 0]), ties to even. *)
Definition round_half_even (N D : Z) : Z :=
  let q := N / D in
  let r := N mod D in
  if 2 * r <? D then q
  else if D <? 2 * r then q + 1
  else if Z.even q then q else q + 1.

(** Exponent of the unit in the last place of [n / d] for [n, d > 0] when
    the mantissa has its full 53 bits: [floor (log2 (n / d)) - 52].  With
    [k] the difference of the bit lengths, [n / d] lies between
    [2 ^ (k - 1)] and [2 ^ (k + 1)]; the test tells on which side of
    [2 ^ k]. *)
Definition norm_exponent (n d : Z) : Z :=
  let k := Z.log2 n - Z.log2 d in
  if n * 2 ^ Z.max 0 (- k) <? d * 2 ^ Z.max 0 k then k - 53 else k - 52.

(** The same, never below the exponent of the subnormal numbers. *)
Definition ulp_exponent (n d : Z) : Z := Z.max (norm_exponent n d) (-1074).

Definition round_pos (n d : Z) : t :=
  let e := ulp_exponent n d in
  mk (round_half_even (n * 2 ^ Z.max 0 (- e)) (d * 2 ^ Z.max 0 e)) e.

(** The rounded magnitude does not fit a double: [|x| >= 2 ^ 1024]. *)
Definition overflows (x : t) : bool :=
  if 0 <=? expo x then 2 ^ 1024 <=? Z.abs (mant x) * 2 ^ expo x
  else 2 ^ (1024 - expo x) <=? Z.abs (mant x).

(** The double nearest to [n / d], for [d > 0]. *)
Definition of_ratio (n d : Z) : result t :=
  if n =? 0 then Ok zero
  else
    let x := round_pos (Z.abs n) d in
    if overflows x then Raise OverflowError
    else Ok (mk (Z.sgn n * mant x) (expo x)).

(** The exact value of a double as a fraction with positive denominator. *)
Definition num (x : t) : Z := mant x * 2 ^ Z.max 0 (expo x).
Definition den (x : t) : Z := 2 ^ Z.max 0 (- expo x).

Definition of_int (i : Z) : result t := of_ratio i 1.

Definition add (x y : t) : result t :=
  of_ratio (num x * den y + num y * den x) (den x * den y).

Definition mul (x y : t) : result t :=
  of_ratio (num x * num y) (den x * den y).

(** [x > y] *)
Definition gtb (x y : t) : bool := num y * den x <? num x * den y.

(** [int(x)]: truncation towards zero. *)
Definition to_int (x : t) : Z := Z.quot (num x) (den x).

End Float64.

(** [a / b] on Python integers. *)
Definition py_truediv (a b : Z) : result Float64.t :=
  if b =? 0 then Raise ZeroDivisionError
  else Float64.of_ratio (Z.sgn b * a) (Z.abs b).

(** [x + i] and [x * i] for a float [x] and an integer [i]: the integer is
    converted first. *)
Definition py_float_add_int (x : Float64.t) (i : Z) : result Float64.t :=
  let* y := Float64.of_int i in Float64.add x y.

Definition py_float_mul_int (x : Float64.t) (i : Z) : result Float64.t :=
  let* y := Float64.of_int i in Float64.mul x y.

(** [float(s)] for a plain decimal literal [digits.digits]: the double
    nearest to the decimal value.  Signs, exponents, [inf] and [nan], which
    [float] also accepts, are not needed by this program. *)
Definition digit_of (c : ascii) : option Z :=
  let n := Z.of_nat (nat_of_ascii c) in
  if (48 <=? n) && (n <=? 57) then Some (n - 48) else None.

Fixpoint parse_decimal (s : string) (acc : Z) (scale : option Z) (seen : bool)
  : option (Z * Z) :=
  match s with
  | EmptyString =>
      if seen then Some (acc, match scale with Some d => d | None => 1 end)
      else None
  | String c s' =>
      if Ascii.eqb c "."%char then
        match scale with
        | None => parse_decimal s' acc (Some 1) seen
        | Some _ => None
        end
      else
        match digit_of c with
        | Some v =>
            parse_decimal s' (10 * acc + v)
              (match scale with Some d => Some (10 * d) | None => None end) true
        | None => None
        end
  end.

Definition py_float_of_string (s : string) : result Float64.t :=
  match parse_decimal s 0 None false with
  | Some (n, d) => Float64.of_ratio n d
  | None => Raise ValueError
  end.

(** ** [str] of an integer, and zero padding *)

Definition py_str_int (n : Z) : string := NilZero.string_of_int (Z.to_int n).

(** [format(n, "0<width>d")] for non-negative [n], as [isoformat] uses it. *)
Fixpoint zeros (n : nat) : string :=
  match n with
  | O => EmptyString
  | S n' => String "0"%char (zeros n')
  end.

Definition zero_pad (width : nat) (s : string) : string :=
  zeros (width - String.length s) +:+ s.

Definition nl : string := String (ascii_of_nat 10) EmptyString.
Definition dquote : string := String (ascii_of_nat 34) EmptyString.

(** ** [datetime.date]

    A date is its proleptic Gregorian ordinal, day 1 being 0001-01-01, as
    in CPython's [datetime]: [date + timedelta] and [date - date] go through
    the ordinal, and a result outside [date.min .. date.max] raises
    [OverflowError]. *)

Module Date.

Abbreviation t := Z.

Definition min_ordinal : Z := 1.
Definition max_ordinal : Z := 3652059.

Definition valid (d : t) : Prop := min_ordinal <= d <= max_ordinal.

Definition validb (d : t) : bool :=
  (min_ordinal <=? d) && (d <=? max_ordinal).

(** [d + timedelta(days=k)] *)
Definition add_days (d : t) (k : Z) : result t :=
  if validb (d + k) then Ok (d + k) else Raise OverflowError.

(** [d - timedelta(days=k)] *)
Definition sub_days (d : t) (k : Z) : result t :=
  if validb (d - k) then Ok (d - k) else Raise OverflowError.

(** [(d1 - d2).days] *)
Definition diff_days (d1 d2 : t) : Z := d1 - d2.

Definition is_leap (y : Z) : bool :=
  (y mod 4 =? 0) && (negb (y mod 100 =? 0) || (y mod 400 =? 0)).

Definition days_before_year (y : Z) : Z :=
  let y1 := y - 1 in y1 * 365 + y1 / 4 - y1 / 100 + y1 / 400.

Definition days_in_month_tbl : list Z :=
  [31; 28; 31; 30; 31; 30; 31; 31; 30; 31; 30; 31].

Definition days_in_month (leap : bool) (m : Z) : Z :=
  nth (Z.to_nat (m - 1)) days_in_month_tbl 0
  + (if (m =? 2) && leap then 1 else 0).

Definition days_before_month_tbl : list Z :=
  [0; 31; 59; 90; 120; 151; 181; 212; 243; 273; 304; 334].

Definition days_before_month (leap : bool) (m : Z) : Z :=
  nth (Z.to_nat (m - 1)) days_before_month_tbl 0
  + (if (2 <? m) && leap then 1 else 0).

(** [date(y, m, d).toordinal()] *)
Definition of_ymd (y m d : Z) : t :=
  days_before_year y + days_before_month (is_leap y) m + d.

(** [date.fromordinal(n)] as (year, month, day). *)
Definition to_ymd (ordinal : t) : Z * Z * Z :=
  let n := ordinal - 1 in
  let n400 := n / 146097 in
  let n := n mod 146097 in
  let n100 := n / 36524 in
  let n := n mod 36524 in
  let n4 := n / 1461 in
  let n := n mod 1461 in
  let n1 := n / 365 in
  let n := n mod 365 in
  let year := n400 * 400 + 1 + n100 * 100 + n4 * 4 + n1 in
  if (n1 =? 4) || (n100 =? 4) then (year - 1, 12, 31)
  else
    let leapyear := (n1 =? 3) && (negb (n4 =? 24) || (n100 =? 3)) in
    let month := Z.shiftr (n + 50) 5 in
    let preceding := days_before_month leapyear month in
    if n <? preceding then
      let month := month - 1 in
      let preceding := preceding - days_in_month leapyear month in
      (year, month, n - preceding + 1)
    else (year, month, n - preceding + 1).

(** [str(d)], that is [d.isoformat()]: YYYY-MM-DD. *)
Definition isoformat (d : t) : string :=
  let '(y, m, dd) := to_ymd d in
  zero_pad 4 (py_str_int y) +:+ "-" +:+ zero_pad 2 (py_str_int m)
  +:+ "-" +:+ zero_pad 2 (py_str_int dd).

End Date.

(** ** Output streams

    A run leaves a trace of writes, each to one stream, in program order.
    [print(s, file=f)] writes [s] and a newline to [f]; [print(s)] writes to
    standard output.  What a raising computation wrote before it raised
    stays written. *)

Inductive stream : Type :=
| Stdout
| Stderr
| FileObj (id : nat).

Definition stream_eqb (f g : stream) : bool :=
  match f, g with
  | Stdout, Stdout => true
  | Stderr, Stderr => true
  | FileObj i, FileObj j => Nat.eqb i j
  | _, _ => false
  end.

Definition io (A : Type) : Type := (list (stream * string) * result A)%type.

Definition io_ret {A : Type} (a : A) : io A := ([], Ok a).

Definition io_bind {A B : Type} (m : io A) (k : A -> io B) : io B :=
  match m with
  | (w, Ok a) => let '(w', r) := k a in (w ++ w', r)
  | (w, Raise e) => (w, Raise e)
  end.

Definition io_lift {A : Type} (r : result A) : io A := ([], r).

Notation "'let!' x ':=' m 'in' k" := (io_bind m (fun x => k))
  (at level 10, x name, m at level 100, k at level 200).

Definition print (s : string) (f : stream) : io unit :=
  ([(f, s +:+ nl)], Ok tt).

(** Everything a trace wrote to the stream [f], concatenated. *)
Fixpoint written_to (f : stream) (w : list (stream * string)) : string :=
  match w with
  | [] => EmptyString
  | (g, s) :: w' =>
      if stream_eqb g f then s +:+ written_to f w' else written_to f w'
  end.

(** ** gitgraph/main.py *)

(** *** [days_range]

    The generator is consumed to its end by its only caller, whose loop body
    has no effect the generator could observe, so it is modelled by the list
    of the values it yields. *)

Fixpoint days_range_loop (start : Date.t) (delta_days offset : Z) (n : nat)
  : result (list Date.t) :=
  match n with
  | O => Ok []
  | S n' =>
      let offset := offset + 1 in
      let* val := (if delta_days >? 0 then Date.add_days start offset
                   else Date.sub_days start offset) in
      let* rest := days_range_loop start delta_days offset n' in
      Ok (val :: rest)
  end.

Definition days_range (start end_ : Date.t) : result (list Date.t) :=
  let delta := Date.diff_days end_ start in
  days_range_loop start delta (-1) (Z.to_nat (Z.abs delta + 1)).

(** *** [compute_color] *)

(** The [colors] dictionary, in insertion order, which is the order
    [colors.items()] iterates in. *)
Definition colors : list (string * string) :=
  [("0.75", "1e6823"); ("0.50", "44a340"); ("0.25", "8cc665");
   ("0.00", "d6e685")].

Fixpoint select_color (ratio : Float64.t) (items : list (string * string))
  (color : string) : result string :=
  match items with
  | [] => Ok color
  | (limit, col) :: rest =>
      let* l := py_float_of_string limit in
      if Float64.gtb ratio l then Ok col
      else select_color ratio rest color
  end.

(** [ratio = 0] in the [else] branch is the integer 0; it compares with a
    float as the float 0.0 does. *)
Definition color_ratio (nb m : Z) : result Float64.t :=
  if m >? 0 then py_truediv nb m else Ok Float64.zero.

Definition compute_color (nb m : Z) : result string :=
  let* ratio := color_ratio nb m in
  let* color := select_color ratio colors "eee" in
  Ok ("#" +:+ color).

(** *** [retrieve_repo_activity] *)

(** The dictionary [{'date': ..., 'commits': ...}] of one day. *)
Record day_entry : Type := mk_day { date : Date.t; commits : Z }.

Record activity : Type := mk_activity {
  per_day_commits : gmap Z day_entry;
  continuous_days_commits : list day_entry;
  nb_commits : Z
}.

Record walk_state : Type := mk_walk {
  ws_nb_commits : Z;
  ws_per_day_commits : gmap Z day_entry;
  ws_previous_date : option Date.t
}.

Definition add_commit (e : day_entry) : day_entry :=
  mk_day (date e) (commits e + 1).

(** The rest of one iteration of the walk, once the date of the commit is
    known: the entry of its day is created if need be, and counted up. *)
Definition count_commit (today : Date.t) (st : walk_state)
  (commit_date : Date.t) : walk_state :=
  let delta := Date.diff_days today commit_date in
  let per_day :=
    match ws_per_day_commits st !! delta with
    | None => <[delta := mk_day commit_date 0]> (ws_per_day_commits st)
    | Some _ => ws_per_day_commits st
    end in
  mk_walk (ws_nb_commits st + 1) (alter add_commit delta per_day)
    (Some commit_date).

Definition day_of (per_day : gmap Z day_entry) (last day : Date.t)
  : day_entry :=
  let delta := Date.diff_days last day in
  mk_day day match per_day !! delta with
             | Some e => commits e
             | None => 0
             end.

(** [repo.walk(last.id, pygit2.GIT_SORT_TIME)]: the commits reachable from
    the head, sorted by commit time, the most recent first.  A repository
    is given by the commit times of these commits, in any order. *)
Fixpoint insert_by_time (commit_time : Z) (sorted : list Z) : list Z :=
  match sorted with
  | [] => [commit_time]
  | t :: rest =>
      if t <=? commit_time then commit_time :: sorted
      else t :: insert_by_time commit_time rest
  end.

Definition repo_walk (repo : list Z) : list Z :=
  fold_right insert_by_time [] repo.

(** [repo[repo.head.target]]: in a repository without commits the head is
    unborn and [repo.head] raises [pygit2.GitError]. *)
Definition repo_head (repo : list Z) : result unit :=
  match repo with
  | [] => Raise GitError
  | _ :: _ => Ok tt
  end.

Section Aggregator.

(** [datetime.datetime.fromtimestamp(t).date()]: the local calendar date
    of a commit time, or the exception raised for a time that has none,
    outside the years 1 to 9999: [ValueError], or [OverflowError] further
    out. *)
Variable local_date : Z -> result Date.t.

(** [datetime.date.today()], the same throughout one run. *)
Variable today : Date.t.

(** One iteration of the walk over the commits. *)
Definition visit_commit (st : walk_state) (commit_time : Z)
  : result walk_state :=
  let* commit_date := local_date commit_time in
  Ok (count_commit today st commit_date).

(** The loop over the commits of a walk, from the state [st]. *)
Fixpoint walk_commits (walk : list Z) (st : walk_state)
  : result walk_state :=
  match walk with
  | [] => Ok st
  | commit_time :: rest =>
      let* st' := visit_commit st commit_time in
      walk_commits rest st'
  end.

(** The function from the loop on, over the commit times that the walk
    yields.  Were the walk empty, [previous_date] would still be [None]
    when [days_range(first, last)] starts and computes [end - start]: a
    [TypeError]. *)
Definition activity_of_walk (walk : list Z) : result activity :=
  let* st := walk_commits walk (mk_walk 0 ∅ None) in
  let last := today in
  let* days := match ws_previous_date st with
               | Some first => days_range first last
               | None => Raise TypeError
               end in
  let continuous := map (day_of (ws_per_day_commits st) last) days in
  Ok (mk_activity (ws_per_day_commits st) (rev continuous)
        (ws_nb_commits st)).

Definition retrieve_repo_activity (repo : list Z) : result activity :=
  let* _ := repo_head repo in
  activity_of_walk (repo_walk repo).

End Aggregator.

(** *** [draw_activity] *)

Definition weeks : Z := 24.
Definition box_height : Z := 11.
Definition box_width : Z := 11.
Definition spacing : Z := 2.
Definition vertical_boxes : Z := 7.

(** [l[-n:]] for [n > 0] *)
Definition last_n {A : Type} (n : nat) (l : list A) : list A :=
  skipn (List.length l - n) l.

(** [max(l)] *)
Definition py_max (l : list Z) : result Z :=
  match l with
  | [] => Raise ValueError
  | x :: l' => Ok (fold_left Z.max l' x)
  end.

Definition quoted (s : string) : string := dquote +:+ s +:+ dquote.

Definition svg_header (width height : Z) : string :=
  "<?xml version=" +:+ quoted "1.0" +:+ " encoding=" +:+ quoted "utf-8"
  +:+ " ?>"
  +:+ "<svg xmlns=" +:+ quoted "http://www.w3.org/2000/svg"
  +:+ " width=" +:+ quoted (py_str_int width)
  +:+ " height=" +:+ quoted (py_str_int height) +:+ ">"
  +:+ "<title>test</title>".

Definition cell_title (d : Date.t) (n : Z) : string :=
  "<title>" +:+ Date.isoformat d +:+ nl
  +:+ (py_str_int n +:+ " commits") +:+ "</title>".

Definition cell_markup (x y : Z) (fill stroke : string) (d : Date.t) (n : Z)
  : string :=
  "<g>"
  +:+ "<rect x=" +:+ quoted (py_str_int x) +:+ " y=" +:+ quoted (py_str_int y)
  +:+ " width=" +:+ quoted "10" +:+ " height=" +:+ quoted "10"
  +:+ " style=" +:+ quoted ("fill:" +:+ fill +:+ ";" +:+ stroke) +:+ " />"
  +:+ cell_title d n
  +:+ "</g>".

Definition svg_width (len : Z) : result Z :=
  let* cols := py_truediv len vertical_boxes in
  let* cols1 := py_float_add_int cols 1 in
  let* w := py_float_mul_int cols1 (box_width + spacing) in
  Ok (Float64.to_int w).

(** One iteration of [for n, day in enumerate(days)]. *)
Definition draw_cell (f : stream) (max_commits len n : Z) (day : day_entry)
  : io unit :=
  let! col := io_lift (py_truediv n vertical_boxes) in
  let x := Float64.to_int col * (box_width + spacing) in
  let y := (n mod vertical_boxes) * (box_height + spacing) in
  let! fill := io_lift (compute_color (commits day) max_commits) in
  print (cell_markup x y fill
           (if n =? len - 1 then "stroke-width:1px;stroke:red" else "")
           (date day) (commits day)) f.

Fixpoint draw_cells (f : stream) (max_commits len n : Z)
  (days : list day_entry) : io unit :=
  match days with
  | [] => io_ret tt
  | day :: rest =>
      let! _ := draw_cell f max_commits len n day in
      draw_cells f max_commits len (n + 1) rest
  end.

Definition draw_activity (days : list day_entry) (f : stream) : io unit :=
  let days := last_n (Z.to_nat (weeks * 7)) (rev days) in
  let! max_commits := io_lift (py_max (map commits days)) in
  let height := box_height * (vertical_boxes + spacing) in
  let len := Z.of_nat (List.length days) in
  let! width := io_lift (svg_width len) in
  let! _ := print (svg_header width height) f in
  let! _ := draw_cells f max_commits len 0 days in
  print "</svg>" Stdout.

(** *** [run], once the repository is open *)

Definition run_pipeline (local_date : Z -> result Date.t) (today : Date.t)
  (repo : list Z) : io unit :=
  let! data := io_lift (retrieve_repo_activity local_date today repo) in
  draw_activity (continuous_days_commits data) Stdout.

(** *** [usage] and [run] *)

Definition usage : io unit := print "usage: gitgraph.py DIRECTORY" Stderr.

(** How a run of the program ends: [run] returns, [sys.exit(code)], or an
    exception nobody catches. *)
Inductive outcome : Type :=
| Returned
| Exited (code : Z)
| Uncaught (e : exn).

Section Run.

(** [pygit2.discover_repository(path)]: the path of the repository found
    from [path], [None] standing for the [KeyError] that [run] catches. *)
Variable discover_repository : string -> option string.

(** [pygit2.Repository(gitpath)]: the repository opened at a path, given
    by the commit times of the commits reachable from its head. *)
Variable repository : string -> list Z.

Variable local_date : Z -> result Date.t.
Variable today : Date.t.

(** [argv] is [sys.argv]: the program name, then the arguments. *)
Definition run (argv : list string) : list (stream * string) * outcome :=
  if negb (List.length argv =? 2)%nat then
    (fst usage, Exited 1)
  else
    let path := nth 1 argv EmptyString in
    match discover_repository path with
    | None =>
        let msg := "git repository not found in " +:+ path +:+ ", aborting." in
        (fst (print msg Stderr), Exited 1)
    | Some gitpath =>
        match run_pipeline local_date today (repository gitpath) with
        | (w, Ok _) => (w, Returned)
        | (w, Raise e) => (w, Uncaught e)
        end
    end.

End Run.

(** ** Vocabulary of the statements *)

(** The dates of the commits of a repository, one per commit and in the
    order given, when every commit time has a date; else the exception
    that the first one without a date raises. *)
Fixpoint dates_of (local_date : Z -> result Date.t) (commit_times : list Z)
  : result (list Date.t) :=
  match commit_times with
  | [] => Ok []
  | t :: rest =>
      let* d := local_date t in
      let* ds := dates_of local_date rest in
      Ok (d :: ds)
  end.


(** The state of the loop after commits of the given dates. *)
Definition commits_counted (today : Date.t) (dates : list Date.t)
  : walk_state :=
  fold_left (count_commit today) dates (mk_walk 0 ∅ None).

(** The number of commits dated [d], among commits of the given dates. *)
Definition commits_on (dates : list Date.t) (d : Date.t) : Z :=
  Z.of_nat (count_occ Z.eq_dec dates d).

(** What the dictionary holds under the key [k] after commits of the given
    dates: nothing when no commit is [k] days old, else the date and the
    count of those that are. *)
Definition per_day_entry (today : Date.t) (dates : list Date.t) (k : Z)
  : option day_entry :=
  if commits_on dates (today - k) =? 0 then None
  else Some (mk_day (today - k) (commits_on dates (today - k))).

(** [n] consecutive dates from [start], going up and going down. *)
Definition asc_days (start : Date.t) (n : nat) : list Date.t :=
  map (fun i => start + Z.of_nat i) (seq 0 n).

Definition desc_days (start : Date.t) (n : nat) : list Date.t :=
  map (fun i => start - Z.of_nat i) (seq 0 n).

Definition total_commits (timeline : list day_entry) : Z :=
  fold_right (fun e s => commits e + s) 0 timeline.

(** A time zone for the examples: UTC, with commit times in seconds since
    1970-01-01; the times before the year 1 and after the year 9999 have no
    date. *)
Definition utc_date (commit_time : Z) : result Date.t :=
  let d := commit_time / 86400 + 719163 in
  if Date.validb d then Ok d else Raise ValueError.

(** Noon UTC of a calendar day, as a commit time. *)
Definition noon (y m d : Z) : Z := (Date.of_ymd y m d - 719163) * 86400 + 43200.

(** Powers of two in the statements about floats: [pw z] is [2 ^ z] for
    [z >= 0] and 1 below; [below n d z] says [n / d < 2 ^ z]; [le_val x y]
    compares the values of two doubles. *)
Definition pw (z : Z) : Z := 2 ^ Z.max 0 z.
Definition below (n d z : Z) : Prop := n * pw (- z) < d * pw z.
Definition le_val (x y : Float64.t) : Prop :=
  Float64.num x * Float64.den y <= Float64.num y * Float64.den x.

(** The thresholds as doubles: 0.75, 0.5 and 0.25 are powers of two and sums
    of two of them, so [float] reads them without rounding. *)
Definition f0_75 : Float64.t := Float64.mk 3 (-2).
Definition f0_50 : Float64.t := Float64.mk 1 (-1).
Definition f0_25 : Float64.t := Float64.mk 1 (-2).

(** The tier of a ratio: the first threshold it is strictly above, taken in
    descending order, and the neutral colour when it is above none. *)
Definition tier_color (ratio : Float64.t) : string :=
  "#" +:+ (if Float64.gtb ratio f0_75 then "1e6823"
           else if Float64.gtb ratio f0_50 then "44a340"
           else if Float64.gtb ratio f0_25 then "8cc665"
           else if Float64.gtb ratio Float64.zero then "d6e685"
           else "eee").

(** The tiers in the words of the specification, on the exact ratio: the
    rational [nb / m], and 0 when the maximum is 0. *)
Definition exact_ratio (nb m : Z) : QArith_base.Q :=
  if m >? 0 then QArith_base.Qmake nb (Z.to_pos m) else QArith_base.Qmake 0 1.

Definition Qgtb (x y : QArith_base.Q) : bool :=
  negb (QArith_base.Qle_bool x y).

Definition exact_color (nb m : Z) : string :=
  let ratio := exact_ratio nb m in
  if Qgtb ratio (QArith_base.Qmake 3 4) then "#1e6823"
  else if Qgtb ratio (QArith_base.Qmake 1 2) then "#44a340"
  else if Qgtb ratio (QArith_base.Qmake 1 4) then "#8cc665"
  else if Qgtb ratio (QArith_base.Qmake 0 1) then "#d6e685"
  else "#eee".

(** Tiers from the lightest, 0 for the neutral colour, to the darkest, 4. *)
Definition tier_rank (color : string) : Z :=
  if String.eqb color "#1e6823" then 4
  else if String.eqb color "#44a340" then 3
  else if String.eqb color "#8cc665" then 2
  else if String.eqb color "#d6e685" then 1
  else 0.

(** The colour [compute_color] returns, where it returns one. *)
Definition color_of (nb m : Z) : string :=
  match compute_color nb m with
  | Ok c => c
  | Raise _ => EmptyString
  end.

(** The extra style of the last cell of a window of [len] days. *)
Definition cell_stroke (len n : Z) : string :=
  if n =? len - 1 then "stroke-width:1px;stroke:red" else "".

(** What the loop of [draw_activity] writes for the days from position [n]. *)
Fixpoint expected_cells (f : stream) (max_commits len n : Z)
  (days : list day_entry) : list (stream * string) :=
  match days with
  | [] => []
  | day :: rest =>
      (f, cell_markup (n / 7 * 13) (n mod 7 * 13)
            (color_of (commits day) max_commits) (cell_stroke len n)
            (date day) (commits day) +:+ nl)
      :: expected_cells f max_commits len (n + 1) rest
  end.

(** The largest count of a non-empty window. *)
Definition window_max (days : list day_entry) : Z :=
  match py_max (map commits days) with
  | Ok m => m
  | Raise _ => 0
  end.

(** The checks run over every position and every length of a window: the
    float division [int(n / 7)] gives the column [n div 7], and the width
    computed on floats is [floor ((len / 7 + 1) * 13)]. *)
Definition column_ok (n : Z) : bool :=
  match py_truediv n vertical_boxes with
  | Ok col => Float64.to_int col =? n / 7
  | Raise _ => false
  end.

Definition width_ok (len : Z) : bool :=
  match svg_width len with
  | Ok w => w =? (len + 7) * 13 / 7
  | Raise _ => false
  end.

(** The commit-count phrase in the words of the specification: singular for
    one commit. *)
Definition commit_phrase_spec (n : Z) : string :=
  if n =? 1 then "1 commit" else py_str_int n +:+ " commits".

Definition cell_title_spec (d : Date.t) (n : Z) : string :=
  "<title>" +:+ Date.isoformat d +:+ nl +:+ commit_phrase_spec n
  +:+ "</title>".

(** [sub] occurs somewhere in [s]. *)
Definition occurs_in (sub s : string) : Prop :=
  exists pre post, s = pre +:+ sub +:+ post.

(** The timeline of a result, if there is one. *)
Definition timeline_of (r : result activity) : option (list day_entry) :=
  match r with
  | Ok a => Some (continuous_days_commits a)
  | Raise _ => None
  end.

(** The reference implementation of IEEE-754 in the Standard Library, to
    check the float model against: [sf_int] is an integer as a float with
    exponent 0, [sf_value] the mantissa and exponent of a finite float, and
    [same_value] says that a reference result and a result of the model are
    the same number (an infinite reference result being an overflow). *)
Definition sf_int (a : Z) : SpecFloat.spec_float :=
  match a with
  | Z0 => SpecFloat.S754_zero false
  | Zpos p => SpecFloat.S754_finite false p 0
  | Zneg p => SpecFloat.S754_finite true p 0
  end.

Definition sf_value (x : SpecFloat.spec_float) : option (Z * Z) :=
  match x with
  | SpecFloat.S754_zero _ => Some (0, 0)
  | SpecFloat.S754_finite s m e => Some (if s then Zneg m else Zpos m, e)
  | _ => None
  end.

Definition same_value (reference : option (Z * Z)) (modelled : result Float64.t)
  : bool :=
  match reference, modelled with
  | Some (m, e), Ok x =>
      m * Float64.den x * 2 ^ Z.max 0 e =? Float64.num x * 2 ^ Z.max 0 (- e)
  | None, Raise OverflowError => true
  | _, _ => false
  end.

Definition truediv_agrees (a b : Z) : bool :=
  same_value (sf_value (SpecFloat.SFdiv 53 1024 (sf_int a) (sf_int b)))
    (py_truediv a b).

(** The five colours of a cell. *)
Definition tier_colors : list string :=
  ["#1e6823"; "#44a340"; "#8cc665"; "#d6e685"; "#eee"].

(** The sum of the counts held in the dictionary [per_day_commits]. *)
Definition per_day_total (per_day : gmap Z day_entry) : Z :=
  map_fold (fun _ e s => commits e + s) 0 per_day.

(** The number of commits dated from [lo] to [hi], among commits of the
    given dates. *)
Definition commits_within (dates : list Date.t) (lo hi : Date.t) : Z :=
  Z.of_nat (List.length
              (List.filter (fun d => (lo <=? d) && (d <=? hi)) dates)).

(** The text of the header and of a cell as the renderer writes them,
    character for character, [dquote] being the double quote: the
    dimensions, the position, the colour, the outline, the date and the
    count are the texts given. *)
Abbreviation svg_header_text width height :=
  ("<?xml version=" +:+ dquote +:+ "1.0" +:+ dquote
   +:+ " encoding=" +:+ dquote +:+ "utf-8" +:+ dquote +:+ " ?>"
   +:+ "<svg xmlns=" +:+ dquote +:+ "http://www.w3.org/2000/svg" +:+ dquote
   +:+ " width=" +:+ dquote +:+ width +:+ dquote
   +:+ " height=" +:+ dquote +:+ height +:+ dquote +:+ ">"
   +:+ "<title>test</title>").

Abbreviation svg_cell_text x y fill stroke day count :=
  ("<g><rect x=" +:+ dquote +:+ x +:+ dquote
   +:+ " y=" +:+ dquote +:+ y +:+ dquote
   +:+ " width=" +:+ dquote +:+ "10" +:+ dquote
   +:+ " height=" +:+ dquote +:+ "10" +:+ dquote
   +:+ " style=" +:+ dquote +:+ "fill:" +:+ fill +:+ ";" +:+ stroke
   +:+ dquote +:+ " />"
   +:+ "<title>" +:+ day +:+ nl +:+ count +:+ " commits</title></g>").

(** Days and repositories for the examples: three days given most recent
    first; four commits, three of them on the earliest day; three commits,
    one of them dated after the 3rd of January; and two commits given the
    earlier one first. *)
Definition example_days : list day_entry :=
  [mk_day 738888 1; mk_day 738887 0; mk_day 738886 3].

Definition example_repo : list Z :=
  [noon 2024 1 1; noon 2024 1 3; noon 2024 1 1; noon 2024 1 1].

Definition repo_with_future_commit : list Z :=
  [noon 2024 1 1; noon 2024 1 5; noon 2024 1 2].

Definition two_commits : list Z := [noon 2024 1 5; noon 2024 1 8].

(** ** The runtime model on examples *)

Example py_str_int_examples :
  py_str_int 0 = "0" /\ py_str_int 42 = "42" /\ py_str_int (-7) = "-7".
Proof. repeat split. Qed.

Example isoformat_examples :
  Date.isoformat (Date.of_ymd 2024 2 29) = "2024-02-29"
  /\ Date.isoformat (Date.of_ymd 2023 12 31) = "2023-12-31"
  /\ Date.isoformat 1 = "0001-01-01"
  /\ Date.isoformat Date.max_ordinal = "9999-12-31"
  /\ Date.of_ymd 1970 1 1 = 719163.
Proof. repeat split. Qed.

(** [3 / 7] is [0x1.b6db6db6db6dbp-2], [float("0.75")] is [3 * 2 ^ -2], and
    [(3 * 2 ** 52 + 1) / 2 ** 54] rounds down to 0.75. *)
Example py_truediv_examples :
  py_truediv 3 7 = Ok (Float64.mk 0x1b6db6db6db6db (-54))
  /\ py_float_of_string "0.75" = Ok (Float64.mk (3 * 2 ^ 51) (-53))
  /\ py_truediv (3 * 2 ^ 52 + 1) (2 ^ 54) = Ok (Float64.mk (3 * 2 ^ 51) (-53))
  /\ py_truediv (2 ^ 1100) 1 = Raise OverflowError
  /\ py_truediv 1 0 = Raise ZeroDivisionError
  /\ py_truediv 1 (2 ^ 1075) = Ok (Float64.mk 0 (-1074)).
Proof. repeat split. Qed.

(** The division of the model and the division of the Standard Library's
    reference implementation give the same number on every quotient
    [a / b] with [0 <= a < 200] and [0 < b <= 30], and on quotients that are
    ties, subnormal, above [2 ^ 53] or out of range. *)
Lemma truediv_agrees_with_reference :
  forallb (fun a => forallb (fun b => truediv_agrees (Z.of_nat a) (Z.of_nat b))
                      (seq 1 30)) (seq 0 200) = true
  /\ forallb (fun p => truediv_agrees (fst p) (snd p))
       [(3 * 2 ^ 52 + 1, 2 ^ 54); (2 ^ 53 - 1, 2 ^ 53 - 3);
        (123456789012345, 987654321); (987654321, 123456789012345);
        (10 ^ 40 + 17, 3 * 10 ^ 20 + 5); (7, 10 ^ 40 + 9);
        (1, 2 ^ 1074); (1, 2 ^ 1075); (3, 2 ^ 1075); (1, 2 ^ 1100);
        (2 ^ 1024 - 2 ^ 970 - 1, 1); (2 ^ 1024 - 2 ^ 970, 1); (2 ^ 1100, 1);
        (-1, 3); (5, -3)] = true.
Proof. split; vm_compute; reflexivity. Qed.

(** ** Facts about the float model *)

Section Float64Facts.

Import Float64.

Lemma pw_pos z : 0 < pw z.
Proof. unfold pw. apply Z.pow_pos_nonneg; lia. Qed.

Lemma pw_nonneg z : 0 <= z -> pw z = 2 ^ z.
Proof. intros H. unfold pw. now rewrite Z.max_r. Qed.

Lemma pw_nonpos z : z <= 0 -> pw z = 1.
Proof. intros H. unfold pw. now rewrite Z.max_l. Qed.

Lemma pow2_pos a : 0 <= a -> 0 < 2 ^ a.
Proof. intros. apply Z.pow_pos_nonneg; lia. Qed.

Lemma below_iff n d a b :
  0 <= a -> 0 <= b -> (n * 2 ^ a < d * 2 ^ b <-> below n d (b - a)).
Proof.
  intros Ha Hb. unfold below.
  destruct (Z_le_gt_dec a b) as [Hab | Hab].
  - rewrite (pw_nonpos (- (b - a))), (pw_nonneg (b - a)) by lia.
    replace (2 ^ b) with (2 ^ (b - a) * 2 ^ a)
      by (rewrite <- Z.pow_add_r by lia; f_equal; lia).
    pose proof (pow2_pos a Ha). pose proof (pow2_pos (b - a)).
    rewrite Z.mul_1_r, Z.mul_assoc. symmetry. apply Z.mul_lt_mono_pos_r. lia.
  - rewrite (pw_nonneg (- (b - a))), (pw_nonpos (b - a)) by lia.
    replace (2 ^ a) with (2 ^ (- (b - a)) * 2 ^ b)
      by (rewrite <- Z.pow_add_r by lia; f_equal; lia).
    pose proof (pow2_pos b Hb).
    rewrite Z.mul_1_r, Z.mul_assoc.
    rewrite <- (Z.mul_lt_mono_pos_r (2 ^ b)) by lia. reflexivity.
Qed.

Lemma below_mono n d z z' :
  0 <= n -> 0 < d -> z <= z' -> below n d z -> below n d z'.
Proof.
  intros Hn Hd Hz H.
  assert (H' : below n d (Z.max 0 z - Z.max 0 (- z)))
    by (replace (Z.max 0 z - Z.max 0 (- z)) with z by lia; exact H).
  apply below_iff in H'; try lia.
  replace z' with ((Z.max 0 z + (z' - z)) - Z.max 0 (- z)) by lia.
  apply (below_iff n d (Z.max 0 (- z)) (Z.max 0 z + (z' - z))); try lia.
  rewrite Z.pow_add_r by lia.
  pose proof (pow2_pos (Z.max 0 z)). pose proof (pow2_pos (Z.max 0 (- z))).
  assert (1 <= 2 ^ (z' - z)) by (pose proof (pow2_pos (z' - z)); lia).
  nia.
Qed.


(** Rounding to the nearest integer: within one of the quotient, monotone,
    and exact with respect to integers. *)
Lemma round_half_even_bounds N D :
  0 < D -> 0 <= N ->
  N / D <= round_half_even N D <= N / D + 1.
Proof.
  intros HD HN. unfold round_half_even.
  destruct (2 * (N mod D) <? D); [lia |].
  destruct (D <? 2 * (N mod D)); [lia |].
  destruct (Z.even (N / D)); lia.
Qed.

Lemma round_half_even_mono N N' D :
  0 < D -> 0 <= N <= N' ->
  round_half_even N D <= round_half_even N' D.
Proof.
  intros HD HN.
  assert (Hq : N / D <= N' / D) by (apply Z.div_le_mono; lia).
  pose proof (round_half_even_bounds N D HD ltac:(lia)) as HR.
  pose proof (round_half_even_bounds N' D HD ltac:(lia)) as HR'.
  destruct (Z.eq_dec (N / D) (N' / D)) as [E | E]; [| lia].
  pose proof (Z.div_mod N D ltac:(lia)) as H1.
  pose proof (Z.div_mod N' D ltac:(lia)) as H2.
  assert (Hr : N mod D <= N' mod D) by (rewrite E in H1; lia).
  unfold round_half_even. rewrite <- E.
  destruct (Z.ltb_spec (2 * (N mod D)) D), (Z.ltb_spec (2 * (N' mod D)) D),
    (Z.ltb_spec D (2 * (N mod D))), (Z.ltb_spec D (2 * (N' mod D))),
    (Z.even (N / D)); lia.
Qed.

(** At or below an integer [T], the rounding stays at or below it. *)
Lemma round_half_even_le N D T :
  0 < D -> 0 <= N -> N <= T * D -> round_half_even N D <= T.
Proof.
  intros HD HN HT.
  pose proof (Z.div_mod N D ltac:(lia)) as H1.
  pose proof (Z.mod_pos_bound N D HD) as H2.
  unfold round_half_even.
  assert (Hq : N / D <= T) by (apply Z.div_le_upper_bound; lia || nia).
  destruct (Z.ltb_spec (2 * (N mod D)) D); [lia |].
  assert (N / D < T) by nia.
  destruct (D <? 2 * (N mod D)); [lia |].
  destruct (Z.even (N / D)); lia.
Qed.

(** More than half a unit above an integer [T], the rounding is above it. *)
Lemma round_half_even_gt N D T g :
  0 < D -> 0 <= N -> T * D + g <= N -> D < 2 * g -> T < round_half_even N D.
Proof.
  intros HD HN HT Hg.
  pose proof (Z.div_mod N D ltac:(lia)) as H1.
  pose proof (Z.mod_pos_bound N D HD) as H2.
  pose proof (round_half_even_bounds N D HD HN) as HR.
  assert (Hq : T <= N / D) by (apply Z.div_le_lower_bound; lia || nia).
  destruct (Z.eq_dec T (N / D)) as [E | E]; [| lia].
  unfold round_half_even.
  assert (D < 2 * (N mod D)) by nia.
  destruct (Z.ltb_spec (2 * (N mod D)) D); [lia |].
  destruct (Z.ltb_spec D (2 * (N mod D))); lia.
Qed.

(** The normal exponent [e0] of [n / d] brackets it:
    [2 ^ (e0 + 52) <= n / d < 2 ^ (e0 + 53)]. *)
Lemma norm_exponent_bracket n d :
  0 < n -> 0 < d ->
  ~ below n d (norm_exponent n d + 52) /\ below n d (norm_exponent n d + 53).
Proof.
  intros Hn Hd. unfold norm_exponent.
  pose proof (Z.log2_spec n Hn) as [Hn1 Hn2].
  pose proof (Z.log2_spec d Hd) as [Hd1 Hd2].
  pose proof (Z.log2_nonneg n) as Hln. pose proof (Z.log2_nonneg d) as Hld.
  set (ln := Z.log2 n) in *. set (ld := Z.log2 d) in *.
  rewrite Z.pow_succ_r in Hn2, Hd2 by assumption.
  pose proof (pow2_pos ln Hln). pose proof (pow2_pos ld Hld).
  change (n * 2 ^ Z.max 0 (- (ln - ld)) <? d * 2 ^ Z.max 0 (ln - ld))
    with (n * pw (- (ln - ld)) <? d * pw (ln - ld)).
  destruct (Z.ltb_spec (n * pw (- (ln - ld))) (d * pw (ln - ld))) as [Ht | Ht].
  - split.
    + replace (ln - ld - 53 + 52) with (ln - (ld + 1)) by lia.
      rewrite <- below_iff by lia. rewrite Z.pow_add_r by lia. nia.
    + replace (ln - ld - 53 + 53) with (ln - ld) by lia. exact Ht.
  - split.
    + replace (ln - ld - 52 + 52) with (ln - ld) by lia.
      unfold below. lia.
    + replace (ln - ld - 52 + 53) with (ln + 1 - ld) by lia.
      rewrite <- below_iff by lia. rewrite Z.pow_add_r by lia. nia.
Qed.

Lemma below_mono_n n n' d z :
  n <= n' -> below n' d z -> below n d z.
Proof.
  unfold below. intros Hn H. pose proof (pw_pos (- z)). nia.
Qed.

Lemma norm_exponent_mono n n' d :
  0 < n <= n' -> 0 < d -> norm_exponent n d <= norm_exponent n' d.
Proof.
  intros Hn Hd.
  destruct (norm_exponent_bracket n d ltac:(lia) Hd) as [Hlo _].
  destruct (norm_exponent_bracket n' d ltac:(lia) Hd) as [_ Hhi'].
  destruct (Z_le_gt_dec (norm_exponent n d) (norm_exponent n' d)); [assumption |].
  exfalso. apply Hlo. apply below_mono_n with n'; [lia |].
  apply below_mono with (norm_exponent n' d + 53); auto; lia.
Qed.

Lemma ulp_exponent_mono n n' d :
  0 < n <= n' -> 0 < d -> ulp_exponent n d <= ulp_exponent n' d.
Proof.
  intros Hn Hd. unfold ulp_exponent.
  pose proof (norm_exponent_mono n n' d Hn Hd). lia.
Qed.

(** Normalisation: the scaled quotient is below 2^53, and at least 2^52
    unless the exponent was clamped. *)
Lemma scaled_upper n d :
  0 < n -> 0 < d ->
  n * pw (- ulp_exponent n d) < 2 ^ 53 * (d * pw (ulp_exponent n d)).
Proof.
  intros Hn Hd.
  destruct (norm_exponent_bracket n d Hn Hd) as [_ Hhi].
  set (e := ulp_exponent n d).
  assert (He : norm_exponent n d <= e) by (unfold e, ulp_exponent; lia).
  apply (below_mono n d _ (e + 53)) in Hhi; try lia.
  replace (e + 53) with ((Z.max 0 e + 53) - Z.max 0 (- e)) in Hhi by lia.
  apply below_iff in Hhi; try lia.
  rewrite Z.pow_add_r in Hhi by lia. unfold pw. lia.
Qed.

Lemma scaled_lower n d :
  0 < n -> 0 < d -> -1074 <= norm_exponent n d ->
  2 ^ 52 * (d * pw (ulp_exponent n d)) <= n * pw (- ulp_exponent n d).
Proof.
  intros Hn Hd Hc.
  destruct (norm_exponent_bracket n d Hn Hd) as [Hlo _].
  set (e := ulp_exponent n d).
  assert (He : norm_exponent n d = e) by (unfold e, ulp_exponent; lia).
  rewrite He in Hlo.
  replace (e + 52) with ((Z.max 0 e + 52) - Z.max 0 (- e)) in Hlo by lia.
  rewrite <- below_iff in Hlo by lia.
  rewrite Z.pow_add_r in Hlo by lia. unfold pw. lia.
Qed.

Lemma round_pos_mant_upper n d :
  0 < n -> 0 < d -> 0 <= mant (round_pos n d) <= 2 ^ 53.
Proof.
  intros Hn Hd. unfold round_pos. cbn [mant].
  pose proof (scaled_upper n d Hn Hd) as Hu.
  fold (pw (- ulp_exponent n d)). fold (pw (ulp_exponent n d)).
  set (N := n * pw (- ulp_exponent n d)) in *.
  set (D := d * pw (ulp_exponent n d)) in *.
  assert (HD : 0 < D) by (pose proof (pw_pos (ulp_exponent n d)); unfold D; nia).
  assert (HN : 0 <= N) by (pose proof (pw_pos (- ulp_exponent n d)); unfold N; nia).
  pose proof (round_half_even_bounds N D HD HN).
  assert (N / D < 2 ^ 53) by (apply Z.div_lt_upper_bound; lia).
  pose proof (Z.div_pos N D HN HD). lia.
Qed.

Lemma round_pos_mant_lower n d :
  0 < n -> 0 < d -> -1074 <= norm_exponent n d ->
  2 ^ 52 <= mant (round_pos n d).
Proof.
  intros Hn Hd Hc. unfold round_pos. cbn [mant].
  pose proof (scaled_lower n d Hn Hd Hc) as Hu.
  fold (pw (- ulp_exponent n d)). fold (pw (ulp_exponent n d)).
  set (N := n * pw (- ulp_exponent n d)) in *.
  set (D := d * pw (ulp_exponent n d)) in *.
  assert (HD : 0 < D) by (pose proof (pw_pos (ulp_exponent n d)); unfold D; nia).
  assert (HN : 0 <= N) by (pose proof (pw_pos (- ulp_exponent n d)); unfold N; nia).
  pose proof (round_half_even_bounds N D HD HN).
  assert (2 ^ 52 <= N / D) by (apply Z.div_le_lower_bound; lia).
  lia.
Qed.

Lemma den_pos x : 0 < den x.
Proof. apply pw_pos. Qed.

Lemma pw_shift e e' :
  e <= e' -> pw e * pw (- e') * 2 ^ (e' - e) = pw e' * pw (- e).
Proof.
  intros H. unfold pw. rewrite <- !Z.pow_add_r by lia. f_equal. lia.
Qed.

Lemma round_pos_mono n n' d :
  0 < n <= n' -> 0 < d -> le_val (round_pos n d) (round_pos n' d).
Proof.
  intros Hn Hd.
  pose proof (ulp_exponent_mono n n' d Hn Hd) as He.
  pose proof (round_pos_mant_upper n d ltac:(lia) Hd) as HR.
  pose proof (round_pos_mant_upper n' d ltac:(lia) Hd) as HR'.
  unfold le_val, num, den.
  change (expo (round_pos n d)) with (ulp_exponent n d).
  change (expo (round_pos n' d)) with (ulp_exponent n' d).
  fold (pw (ulp_exponent n d)) (pw (ulp_exponent n' d))
    (pw (- ulp_exponent n d)) (pw (- ulp_exponent n' d)).
  destruct (Z.eq_dec (ulp_exponent n d) (ulp_exponent n' d)) as [E | E].
  - assert (Hm : mant (round_pos n d) <= mant (round_pos n' d)).
    { unfold round_pos. cbn [mant]. rewrite <- E.
      fold (pw (ulp_exponent n d)) (pw (- ulp_exponent n d)).
      pose proof (pw_pos (ulp_exponent n d)).
      pose proof (pw_pos (- ulp_exponent n d)).
      apply round_half_even_mono; nia. }
    rewrite <- E.
    pose proof (pw_pos (ulp_exponent n d)).
    pose proof (pw_pos (- ulp_exponent n d)).
    apply Z.mul_le_mono_nonneg_r; [lia |].
    apply Z.mul_le_mono_nonneg_r; lia.
  - assert (Hc : -1074 <= norm_exponent n' d).
    { unfold ulp_exponent in *. lia. }
    pose proof (round_pos_mant_lower n' d ltac:(lia) Hd Hc) as HL.
    pose proof (pw_shift (ulp_exponent n d) (ulp_exponent n' d) He) as Hs.
    assert (H2 : 2 <= 2 ^ (ulp_exponent n' d - ulp_exponent n d)).
    { change 2 with (2 ^ 1) at 1. apply Z.pow_le_mono_r; lia. }
    set (X := pw (ulp_exponent n d) * pw (- ulp_exponent n' d)) in *.
    assert (HX : 0 < X).
    { pose proof (pw_pos (ulp_exponent n d)).
      pose proof (pw_pos (- ulp_exponent n' d)). unfold X. nia. }
    rewrite <- Z.mul_assoc. fold X.
    rewrite <- Z.mul_assoc, <- Hs.
    change (2 ^ 53) with (2 ^ 52 * 2) in HR.
    set (R := mant (round_pos n d)) in *.
    set (R' := mant (round_pos n' d)) in *.
    set (P := 2 ^ (ulp_exponent n' d - ulp_exponent n d)) in *.
    set (c := 2 ^ 52) in *.
    assert (0 < c) by (unfold c; lia).
    transitivity (c * 2 * X); [nia |].
    transitivity (c * (X * P)); nia.
Qed.

Lemma gtb_mono x x' y :
  le_val x x' -> gtb x y = true -> gtb x' y = true.
Proof.
  unfold le_val, gtb. intros Hle H.
  apply Z.ltb_lt in H. apply Z.ltb_lt.
  pose proof (den_pos x). pose proof (den_pos x'). pose proof (den_pos y).
  apply (Z.mul_lt_mono_pos_r (den x)); [assumption |].
  apply Z.lt_le_trans with (num x * den y * den x'); nia.
Qed.

(** No overflow below [2 ^ 1000]. *)
Lemma no_overflow_small x :
  0 <= mant x <= 2 ^ 53 -> expo x <= 970 -> overflows x = false.
Proof.
  intros Hm He. unfold overflows. rewrite Z.abs_eq by lia.
  destruct (Z.leb_spec 0 (expo x)).
  - apply Z.leb_gt.
    apply Z.le_lt_trans with (2 ^ 53 * 2 ^ 970); [| reflexivity].
    assert (2 ^ expo x <= 2 ^ 970) by (apply Z.pow_le_mono_r; lia).
    pose proof (pow2_pos (expo x) ltac:(lia)). nia.
  - apply Z.leb_gt.
    assert (2 ^ 1024 <= 2 ^ (1024 - expo x)) by (apply Z.pow_le_mono_r; lia).
    assert (2 ^ 53 < 2 ^ 1024) by reflexivity. lia.
Qed.

Lemma norm_exponent_upper n d z :
  0 < n -> 0 < d -> below n d z -> norm_exponent n d + 52 < z.
Proof.
  intros Hn Hd Hb.
  destruct (norm_exponent_bracket n d Hn Hd) as [Hlo _].
  destruct (Z_lt_ge_dec (norm_exponent n d + 52) z); [assumption |].
  exfalso. apply Hlo. apply below_mono with z; auto; lia.
Qed.

Lemma norm_exponent_lower n d z :
  0 < n -> 0 < d -> ~ below n d z -> z < norm_exponent n d + 53.
Proof.
  intros Hn Hd Hb.
  destruct (norm_exponent_bracket n d Hn Hd) as [_ Hhi].
  destruct (Z_lt_ge_dec z (norm_exponent n d + 53)); [assumption |].
  exfalso. apply Hb. apply below_mono with (norm_exponent n d + 53); auto; lia.
Qed.

Lemma round_pos_no_overflow n d :
  0 < n -> 0 < d -> n < 2 ^ 1000 * d -> overflows (round_pos n d) = false.
Proof.
  intros Hn Hd Hb.
  apply no_overflow_small; [now apply round_pos_mant_upper |].
  change (expo (round_pos n d)) with (ulp_exponent n d). unfold ulp_exponent.
  assert (below n d 1000).
  { unfold below. rewrite pw_nonpos, pw_nonneg by lia. lia. }
  pose proof (norm_exponent_upper n d 1000 Hn Hd H). lia.
Qed.

Lemma of_ratio_pos n d :
  0 < n -> 0 < d -> n < 2 ^ 1000 * d -> of_ratio n d = Ok (round_pos n d).
Proof.
  intros Hn Hd Hb. unfold of_ratio.
  destruct (Z.eqb_spec n 0); [lia |].
  rewrite Z.abs_eq by lia. rewrite round_pos_no_overflow by assumption.
  rewrite Z.sgn_pos by lia. rewrite Z.mul_1_l. now destruct (round_pos n d).
Qed.

Lemma py_truediv_pos a b :
  0 < a -> 0 < b -> a < 2 ^ 1000 * b -> py_truediv a b = Ok (round_pos a b).
Proof.
  intros Ha Hb Hlt. unfold py_truediv.
  destruct (Z.eqb_spec b 0); [lia |].
  rewrite Z.sgn_pos, Z.abs_eq, Z.mul_1_l by lia. now apply of_ratio_pos.
Qed.

Lemma py_truediv_zero b : 0 < b -> py_truediv 0 b = Ok zero.
Proof.
  intros Hb. unfold py_truediv. destruct (Z.eqb_spec b 0); [lia |].
  now rewrite Z.mul_0_r.
Qed.

(** Thresholds: [x > A / 2 ^ s] is the test [A * den x <? 2 ^ s * num x].
    Below a divisor of [2 ^ 52] the rounded quotient passes it exactly when
    the exact quotient does; a quotient of 1 or more passes every threshold
    below 1. *)
Lemma round_pos_threshold_exact n d A s :
  0 < n < d -> d < 2 ^ 52 -> 0 <= A -> 0 <= s <= 2 ->
  (A * den (round_pos n d) <? 2 ^ s * num (round_pos n d))
  = (A * d <? 2 ^ s * n).
Proof.
  intros Hn Hd HA Hs.
  assert (Hb : below n d 0) by (unfold below; rewrite !pw_nonpos by lia; lia).
  pose proof (norm_exponent_upper n d 0 ltac:(lia) ltac:(lia) Hb) as He0.
  unfold num, den. change (expo (round_pos n d)) with (ulp_exponent n d).
  assert (He : ulp_exponent n d <= -53) by (unfold ulp_exponent; lia).
  unfold round_pos. cbn [mant].
  set (e := ulp_exponent n d) in *.
  rewrite (Z.max_l 0 e), (Z.max_r 0 (- e)), Z.pow_0_r, !Z.mul_1_r by lia.
  replace (- e) with ((- e - s) + s) by lia.
  rewrite Z.pow_add_r by lia.
  set (J := 2 ^ (- e - s)).
  assert (HJ : 2 ^ 51 <= J) by (apply Z.pow_le_mono_r; lia).
  pose proof (pow2_pos s ltac:(lia)) as HS. set (S := 2 ^ s) in *.
  set (R := round_half_even (n * (J * S)) d).
  destruct (Z.ltb_spec (A * d) (S * n)) as [Hlt | Hge].
  - assert (A * J < R).
    { apply round_half_even_gt with J; try nia. }
    apply Z.ltb_lt. nia.
  - assert (R <= A * J).
    { apply round_half_even_le; try nia. }
    apply Z.ltb_ge. nia.
Qed.

Lemma round_pos_threshold_ge_one n d A s :
  0 < d <= n -> 0 <= A < 2 ^ s -> 0 <= s ->
  (A * den (round_pos n d) <? 2 ^ s * num (round_pos n d)) = true.
Proof.
  intros Hn HA Hs.
  assert (Hb : ~ below n d 0) by (unfold below; rewrite !pw_nonpos by lia; lia).
  pose proof (norm_exponent_lower n d 0 ltac:(lia) ltac:(lia) Hb) as He0.
  pose proof (round_pos_mant_lower n d ltac:(lia) ltac:(lia) ltac:(lia)) as HL.
  unfold num, den. change (expo (round_pos n d)) with (ulp_exponent n d).
  assert (He : ulp_exponent n d = norm_exponent n d)
    by (unfold ulp_exponent; lia).
  set (R := mant (round_pos n d)) in *. set (e := ulp_exponent n d) in *.
  fold (pw e) (pw (- e)). apply Z.ltb_lt.
  set (S := 2 ^ s) in *.
  destruct (Z_le_gt_dec 0 e).
  - rewrite (pw_nonpos (- e)) by lia. pose proof (pw_pos e).
    assert (1 <= R) by lia.
    assert (1 <= R * pw e) by nia. nia.
  - rewrite (pw_nonpos e), (pw_nonneg (- e)) by lia.
    assert (2 ^ (- e) <= 2 ^ 52) by (apply Z.pow_le_mono_r; lia).
    pose proof (pow2_pos (- e) ltac:(lia)).
    assert (2 ^ (- e) <= R) by lia.
    assert (A * 2 ^ (- e) <= A * R) by nia. nia.
Qed.

End Float64Facts.

(** ** [compute_color] *)

Section ColorFacts.
Import Float64.

Lemma gtb_test x A s :
  0 <= s -> gtb x (mk A (- s)) = (A * den x <? 2 ^ s * num x).
Proof.
  intros Hs. unfold gtb. unfold num at 1. unfold den at 2. cbn [mant expo].
  rewrite Z.max_l, Z.opp_involutive, Z.max_r, Z.pow_0_r, Z.mul_1_r by lia.
  f_equal. lia.
Qed.

Lemma gtb_scaled x A s i :
  0 <= s -> 0 <= i -> gtb x (mk (A * 2 ^ i) (- (s + i))) = gtb x (mk A (- s)).
Proof.
  intros Hs Hi. rewrite !gtb_test by lia.
  rewrite Z.pow_add_r by lia. pose proof (pow2_pos i Hi).
  destruct (Z.ltb_spec (A * 2 ^ i * den x) (2 ^ s * 2 ^ i * num x)),
    (Z.ltb_spec (A * den x) (2 ^ s * num x)); try reflexivity; nia.
Qed.

Lemma select_color_tiers ratio :
  select_color ratio colors "eee"
  = Ok (if gtb ratio f0_75 then "1e6823"
        else if gtb ratio f0_50 then "44a340"
        else if gtb ratio f0_25 then "8cc665"
        else if gtb ratio zero then "d6e685"
        else "eee")%string.
Proof.
  unfold colors. cbn [select_color].
  change (py_float_of_string "0.75") with (Ok (mk (3 * 2 ^ 51) (- (2 + 51)))).
  change (py_float_of_string "0.50") with (Ok (mk (1 * 2 ^ 52) (- (1 + 52)))).
  change (py_float_of_string "0.25") with (Ok (mk (1 * 2 ^ 52) (- (2 + 52)))).
  change (py_float_of_string "0.00") with (Ok zero).
  cbn [rbind]. rewrite !gtb_scaled by lia.
  change (mk 3 (Z.opp 2)) with f0_75. change (mk 1 (Z.opp 1)) with f0_50.
  change (mk 1 (Z.opp 2)) with f0_25.
  destruct (gtb ratio f0_75); [reflexivity |].
  destruct (gtb ratio f0_50); [reflexivity |].
  destruct (gtb ratio f0_25); [reflexivity |].
  destruct (gtb ratio zero); reflexivity.
Qed.

Lemma compute_color_unfold nb m :
  compute_color nb m = (let* ratio := color_ratio nb m in Ok (tier_color ratio)).
Proof.
  unfold compute_color. destruct (color_ratio nb m) as [ratio | e]; [| reflexivity].
  cbn [rbind]. rewrite select_color_tiers. reflexivity.
Qed.

Lemma gtb_zero x : gtb x zero = (0 * den x <? 2 ^ 0 * num x).
Proof. apply (gtb_test x 0 0). lia. Qed.

Lemma tier_color_tests x :
  tier_color x =
  if 3 * den x <? 2 ^ 2 * num x then "#1e6823"
  else if 1 * den x <? 2 ^ 1 * num x then "#44a340"
  else if 1 * den x <? 2 ^ 2 * num x then "#8cc665"
  else if 0 * den x <? 2 ^ 0 * num x then "#d6e685"
  else "#eee".
Proof.
  unfold tier_color.
  change f0_75 with (mk 3 (Z.opp 2)). change f0_50 with (mk 1 (Z.opp 1)).
  change f0_25 with (mk 1 (Z.opp 2)).
  rewrite (gtb_test x 3 2), (gtb_test x 1 1), (gtb_test x 1 2), gtb_zero by lia.
  destruct (3 * den x <? 2 ^ 2 * num x); [reflexivity |].
  destruct (1 * den x <? 2 ^ 1 * num x); [reflexivity |].
  destruct (1 * den x <? 2 ^ 2 * num x); [reflexivity |].
  destruct (0 * den x <? 2 ^ 0 * num x); reflexivity.
Qed.

Lemma color_ratio_pos nb m :
  0 < nb -> 0 < m -> nb < 2 ^ 1000 * m ->
  color_ratio nb m = Ok (round_pos nb m).
Proof.
  intros Hn Hm Hb. unfold color_ratio.
  rewrite (proj2 (Z.gtb_lt m 0)) by lia. now apply py_truediv_pos.
Qed.

Lemma color_ratio_zero m : color_ratio 0 m = Ok zero.
Proof.
  unfold color_ratio. destruct (Z.gtb_spec m 0); [| reflexivity].
  apply py_truediv_zero. lia.
Qed.

Lemma color_ratio_no_max nb m : m <= 0 -> color_ratio nb m = Ok zero.
Proof.
  intros Hm. unfold color_ratio.
  destruct (Z.gtb_spec m 0); [lia | reflexivity].
Qed.

Lemma Qgtb_ratio (nb m A : Z) (B : positive) :
  0 < m ->
  Qgtb (QArith_base.Qmake nb (Z.to_pos m)) (QArith_base.Qmake A B)
  = (A * m <? Z.pos B * nb).
Proof.
  intros Hm. unfold Qgtb, QArith_base.Qle_bool.
  cbn [QArith_base.Qnum QArith_base.Qden].
  rewrite Z2Pos.id by exact Hm.
  rewrite (Z.mul_comm nb). symmetry. apply Z.ltb_antisym.
Qed.

(** The exact tests, cross-multiplied. *)
Lemma exact_color_tests (nb m : Z) :
  exact_color nb m =
  if m >? 0 then
    if 3 * m <? 4 * nb then "#1e6823"
    else if 1 * m <? 2 * nb then "#44a340"
    else if 1 * m <? 4 * nb then "#8cc665"
    else if 0 * m <? 1 * nb then "#d6e685"
    else "#eee"
  else "#eee".
Proof.
  unfold exact_color, exact_ratio.
  destruct (Z.gtb_spec m 0) as [Hm | Hm]; [| reflexivity].
  now rewrite !Qgtb_ratio by exact Hm.
Qed.

Lemma compute_color_exact nb m :
  0 <= nb < 2 ^ 1000 -> 0 <= m < 2 ^ 52 ->
  compute_color nb m = Ok (exact_color nb m).
Proof.
  intros Hn Hm. rewrite compute_color_unfold, exact_color_tests.
  destruct (Z.gtb_spec m 0) as [Hpos | Hz].
  2:{ rewrite color_ratio_no_max by lia. reflexivity. }
  destruct (Z.eq_dec nb 0) as [-> | Hnz].
  { rewrite color_ratio_zero. cbn [rbind].
    destruct (Z.ltb_spec (3 * m) (4 * 0)); [lia |].
    destruct (Z.ltb_spec (1 * m) (2 * 0)); [lia |].
    destruct (Z.ltb_spec (1 * m) (4 * 0)); [lia |].
    reflexivity. }
  rewrite color_ratio_pos by nia. cbn [rbind]. f_equal.
  rewrite tier_color_tests.
  destruct (Z_lt_ge_dec nb m) as [Hlt | Hge].
  - rewrite !round_pos_threshold_exact by lia. reflexivity.
  - rewrite (round_pos_threshold_ge_one nb m 3 2) by lia.
    destruct (Z.ltb_spec (3 * m) (4 * nb)); [reflexivity | lia].
Qed.

Lemma compute_color_total nb m :
  0 <= nb <= m -> exists ratio,
    color_ratio nb m = Ok ratio /\ compute_color nb m = Ok (tier_color ratio).
Proof.
  intros Hn. rewrite compute_color_unfold.
  destruct (Z.eq_dec nb 0) as [-> | Hnz].
  - exists zero. now rewrite color_ratio_zero.
  - exists (round_pos nb m). rewrite color_ratio_pos by nia. now split.
Qed.

End ColorFacts.

Lemma tier_color_in (x : Float64.t) : In (tier_color x) tier_colors.
Proof.
  unfold tier_color, tier_colors.
  destruct (Float64.gtb x f0_75); [now left |].
  destruct (Float64.gtb x f0_50); [now right; left |].
  destruct (Float64.gtb x f0_25); [now right; right; left |].
  destruct (Float64.gtb x Float64.zero); [now right; right; right; left |].
  now right; right; right; right; left.
Qed.

(** C6 (as amended): for [0 <= nb < 2 ^ 1000] and [0 <= m < 2 ^ 52],
    [compute_color nb m] is the colour of the exact ratio [nb / m], taken
    as 0 when [m = 0]: [#1e6823] above 0.75, else [#44a340] above 0.50,
    else [#8cc665] above 0.25, else [#d6e685] above 0, else [#eee], every
    test being strict.  When [m = 0] the colour is [#eee] whatever [nb] is,
    and nothing is divided.  While [nb <= m], as for every cell of a
    window, a colour is returned, one of these five. *)
Theorem compute_color_tiers (nb m : Z) :
  0 <= nb -> 0 <= m ->
  (nb < 2 ^ 1000 -> m < 2 ^ 52 ->
   compute_color nb m = Ok (exact_color nb m))
  /\ (m = 0 -> compute_color nb m = Ok "#eee")
  /\ (nb <= m ->
      exists color, compute_color nb m = Ok color /\ In color tier_colors).
Proof.
  intros Hnb Hm.
  split.
  { intros Hn1 Hm1. apply compute_color_exact; lia. }
  split.
  { intros ->.
    rewrite compute_color_unfold, color_ratio_no_max by lia. reflexivity. }
  intros Hle.
  destruct (compute_color_total nb m ltac:(lia)) as (ratio & _ & ->).
  eexists. split; [reflexivity | apply tier_color_in].
Qed.

Lemma compute_color_tiers_witness :
  compute_color 1 3 = Ok "#8cc665"
  /\ compute_color 4 5 = Ok "#1e6823"
  /\ compute_color 3 4 = Ok "#44a340"
  /\ compute_color 7 0 = Ok "#eee".
Proof.
  split; [| split; [| split]].
  - destruct (compute_color_tiers 1 3 ltac:(lia) ltac:(lia)) as (H & _).
    apply H; reflexivity.
  - destruct (compute_color_tiers 4 5 ltac:(lia) ltac:(lia)) as (H & _).
    apply H; reflexivity.
  - destruct (compute_color_tiers 3 4 ltac:(lia) ltac:(lia)) as (H & _).
    apply H; reflexivity.
  - destruct (compute_color_tiers 7 0 ltac:(lia) ltac:(lia)) as (_ & H & _).
    apply H; reflexivity.
Defined.

(** Beyond these bounds the colour is not the one of the exact ratio.
    With a count of [2 ^ 1100] and a maximum of 1 the quotient does not fit
    a float and the division raises [OverflowError]: no colour is
    returned.  With a count of
    [3 * 2 ^ 52 + 1] and a maximum of [2 ^ 54] the exact ratio is above
    0.75, yet the float quotient is rounded to 0.75, which is not strictly
    above the threshold: the colour is the one of the tier below. *)
Lemma compute_color_beyond_doubles :
  compute_color (2 ^ 1100) 1 = Raise OverflowError
  /\ exact_color (2 ^ 1100) 1 = "#1e6823"
  /\ compute_color (3 * 2 ^ 52 + 1) (2 ^ 54) = Ok "#44a340"
  /\ exact_color (3 * 2 ^ 52 + 1) (2 ^ 54) = "#1e6823".
Proof. repeat split; vm_compute; reflexivity. Qed.

Lemma le_val_refl (x : Float64.t) : le_val x x.
Proof. unfold le_val. lia. Qed.

Lemma le_val_zero (x : Float64.t) :
  0 <= Float64.mant x -> le_val Float64.zero x.
Proof.
  intros Hx. unfold le_val, Float64.num. cbn [Float64.mant Float64.zero].
  pose proof (den_pos Float64.zero).
  assert (0 < 2 ^ Z.max 0 (Float64.expo x)) by (apply Z.pow_pos_nonneg; lia).
  nia.
Qed.

Lemma color_ratio_mono (a b m : Z) :
  0 <= b <= a -> a <= m ->
  exists ra rb,
    color_ratio a m = Ok ra /\ color_ratio b m = Ok rb /\ le_val rb ra.
Proof.
  intros Hb Ha.
  destruct (Z.eq_dec b 0) as [-> | Hbz].
  - destruct (Z.eq_dec a 0) as [-> | Haz].
    + exists Float64.zero, Float64.zero. rewrite color_ratio_zero.
      repeat split. apply le_val_refl.
    + exists (Float64.round_pos a m), Float64.zero.
      rewrite color_ratio_zero, color_ratio_pos by nia.
      repeat split. apply le_val_zero.
      apply round_pos_mant_upper; lia.
  - exists (Float64.round_pos a m), (Float64.round_pos b m).
    rewrite !color_ratio_pos by nia. repeat split.
    apply round_pos_mono; lia.
Qed.

Lemma tier_rank_mono (x x' : Float64.t) :
  le_val x x' -> tier_rank (tier_color x) <= tier_rank (tier_color x').
Proof.
  intros Hle. unfold tier_color.
  pose proof (gtb_mono x x' f0_75 Hle) as H1.
  pose proof (gtb_mono x x' f0_50 Hle) as H2.
  pose proof (gtb_mono x x' f0_25 Hle) as H3.
  pose proof (gtb_mono x x' Float64.zero Hle) as H4.
  destruct (Float64.gtb x f0_75); [rewrite H1 by reflexivity; reflexivity |].
  destruct (Float64.gtb x f0_50);
    [rewrite H2 by reflexivity; destruct (Float64.gtb x' f0_75);
     vm_compute; discriminate |].
  destruct (Float64.gtb x f0_25);
    [rewrite H3 by reflexivity;
     destruct (Float64.gtb x' f0_75), (Float64.gtb x' f0_50);
     vm_compute; discriminate |].
  destruct (Float64.gtb x Float64.zero);
    [rewrite H4 by reflexivity |];
    destruct (Float64.gtb x' f0_75), (Float64.gtb x' f0_50),
      (Float64.gtb x' f0_25), (Float64.gtb x' Float64.zero);
    vm_compute; discriminate.
Qed.

(** C7 (as amended): against one window maximum, a day with at least as
    many commits as another never gets a lighter tier; the tier does not
    decrease as the count grows. *)
Theorem color_monotone (a b m : Z) :
  0 <= b <= a -> a <= m ->
  exists ca cb,
    compute_color a m = Ok ca /\ compute_color b m = Ok cb
    /\ tier_rank cb <= tier_rank ca.
Proof.
  intros Hb Ha.
  destruct (color_ratio_mono a b m Hb Ha) as (ra & rb & Hra & Hrb & Hle).
  exists (tier_color ra), (tier_color rb).
  rewrite !compute_color_unfold, Hra, Hrb. repeat split.
  now apply tier_rank_mono.
Qed.

Lemma color_monotone_witness :
  (0 <= 1 <= 3 /\ 3 <= 3)
  /\ exists ca cb,
       compute_color 3 3 = Ok ca /\ compute_color 1 3 = Ok cb
       /\ tier_rank cb <= tier_rank ca.
Proof. split; [lia |]. apply (color_monotone 3 1 3); lia. Defined.

(** More commits, same tier: 100 and 99 commits against a maximum of 100
    are both in the darkest tier, so the tier of the larger count is equal
    to, not darker than, the tier of the smaller. *)
Lemma color_not_strictly_monotone :
  99 < 100
  /\ compute_color 100 100 = Ok "#1e6823"
  /\ compute_color 99 100 = Ok "#1e6823"
  /\ tier_rank "#1e6823" <= tier_rank "#1e6823".
Proof. repeat split; vm_compute; discriminate. Qed.

(** ** [days_range] *)

Lemma add_days_valid (d k : Z) :
  Date.valid (d + k) -> Date.add_days d k = Ok (d + k).
Proof.
  intros [H1 H2]. unfold Date.add_days, Date.validb.
  now rewrite (proj2 (Z.leb_le _ _) H1), (proj2 (Z.leb_le _ _) H2).
Qed.

Lemma sub_days_valid (d k : Z) :
  Date.valid (d - k) -> Date.sub_days d k = Ok (d - k).
Proof.
  intros [H1 H2]. unfold Date.sub_days, Date.validb.
  now rewrite (proj2 (Z.leb_le _ _) H1), (proj2 (Z.leb_le _ _) H2).
Qed.

Lemma map_seq_shift {A : Type} (g : nat -> A) (n : nat) :
  map g (seq 1 n) = map (fun i => g (S i)) (seq 0 n).
Proof. now rewrite <- seq_shift, map_map. Qed.

Lemma days_range_loop_up (start delta : Z) (n : nat) :
  0 < delta ->
  forall offset,
    (forall i, (i < n)%nat -> Date.valid (start + (offset + 1 + Z.of_nat i))) ->
    days_range_loop start delta offset n
    = Ok (map (fun i => start + (offset + 1 + Z.of_nat i)) (seq 0 n)).
Proof.
  intros Hd. apply Z.gtb_lt in Hd.
  induction n as [| n IH]; intros offset Hv; [reflexivity |].
  cbn [days_range_loop]. rewrite Hd.
  rewrite add_days_valid
    by (specialize (Hv O); rewrite Z.add_0_r in Hv; apply Hv; lia).
  cbn [rbind]. rewrite IH.
  - cbn [rbind seq map]. rewrite map_seq_shift. f_equal. f_equal.
    + f_equal. lia.
    + apply map_ext. intros i. lia.
  - intros i Hi. specialize (Hv (S i)).
    replace (offset + 1 + 1 + Z.of_nat i)
      with (offset + 1 + Z.of_nat (S i)) by lia.
    apply Hv. lia.
Qed.

Lemma days_range_loop_down (start delta : Z) (n : nat) :
  delta <= 0 ->
  forall offset,
    (forall i, (i < n)%nat -> Date.valid (start - (offset + 1 + Z.of_nat i))) ->
    days_range_loop start delta offset n
    = Ok (map (fun i => start - (offset + 1 + Z.of_nat i)) (seq 0 n)).
Proof.
  intros Hd.
  assert (Hg : (delta >? 0) = false) by (rewrite Z.gtb_ltb; now apply Z.ltb_ge).
  induction n as [| n IH]; intros offset Hv; [reflexivity |].
  cbn [days_range_loop]. rewrite Hg.
  rewrite sub_days_valid
    by (specialize (Hv O); rewrite Z.add_0_r in Hv; apply Hv; lia).
  cbn [rbind]. rewrite IH.
  - cbn [rbind seq map]. rewrite map_seq_shift. f_equal. f_equal.
    + f_equal. lia.
    + apply map_ext. intros i. lia.
  - intros i Hi. specialize (Hv (S i)).
    replace (offset + 1 + 1 + Z.of_nat i)
      with (offset + 1 + Z.of_nat (S i)) by lia.
    apply Hv. lia.
Qed.

Lemma length_asc_days (start : Z) (n : nat) :
  List.length (asc_days start n) = n.
Proof. unfold asc_days. now rewrite length_map, length_seq. Qed.

Lemma length_desc_days (start : Z) (n : nat) :
  List.length (desc_days start n) = n.
Proof. unfold desc_days. now rewrite length_map, length_seq. Qed.

Lemma desc_days_rev (start : Z) (n : nat) :
  desc_days start n = rev (asc_days (start - Z.of_nat n + 1) n).
Proof.
  revert start. induction n as [| n IH]; intros start; [reflexivity |].
  unfold asc_days. rewrite seq_S, map_app, rev_app_distr. cbn [map rev app].
  unfold desc_days. cbn [seq map]. rewrite map_seq_shift. f_equal; [lia |].
  fold (asc_days (start - Z.of_nat (S n) + 1) n).
  replace (start - Z.of_nat (S n) + 1) with (start - 1 - Z.of_nat n + 1) by lia.
  rewrite <- IH. unfold desc_days. apply map_ext. intros i. lia.
Qed.

Lemma days_range_asc (start end_ : Date.t) :
  Date.valid start -> Date.valid end_ -> start <= end_ ->
  days_range start end_ = Ok (asc_days start (Z.to_nat (end_ - start + 1))).
Proof.
  intros [Hs1 Hs2] [He1 He2] Hle. unfold days_range, Date.diff_days.
  destruct (Z.eq_dec start end_) as [E | E].
  - subst end_. rewrite Z.sub_diag. simpl.
    rewrite sub_days_valid by (split; lia).
    replace (start - (-1 + 1)) with (start + Z.of_nat 0) by (simpl; lia).
    reflexivity.
  - rewrite days_range_loop_up.
    + rewrite Z.abs_eq by lia. unfold asc_days. apply f_equal.
      apply map_ext. intros i. lia.
    + lia.
    + intros i Hi. unfold Date.valid, Date.min_ordinal, Date.max_ordinal in *.
      lia.
Qed.

Lemma days_range_desc (start end_ : Date.t) :
  Date.valid start -> Date.valid end_ -> end_ <= start ->
  days_range start end_ = Ok (desc_days start (Z.to_nat (start - end_ + 1))).
Proof.
  intros [Hs1 Hs2] [He1 He2] Hle. unfold days_range, Date.diff_days.
  rewrite days_range_loop_down.
  - rewrite Z.abs_neq by lia. unfold desc_days.
    replace (- (end_ - start) + 1) with (start - end_ + 1) by lia.
    apply f_equal. apply map_ext. intros i. lia.
  - lia.
  - intros i Hi. unfold Date.valid, Date.min_ordinal, Date.max_ordinal in *.
    lia.
Qed.

(** C10: for every pair of dates, [days_range start end_] raises nothing and
    yields [|(end_ - start).days| + 1] dates: the consecutive dates from
    [start] up to [end_] when [start <= end_], and from [start] down to
    [end_] when [start > end_]. *)
Theorem days_range_spec (start end_ : Date.t) :
  Date.valid start -> Date.valid end_ ->
  exists days,
    days_range start end_ = Ok days
    /\ List.length days = Z.to_nat (Z.abs (Date.diff_days end_ start) + 1)
    /\ (start <= end_ -> days = asc_days start (List.length days))
    /\ (end_ < start -> days = desc_days start (List.length days))
    /\ nth_error days 0 = Some start
    /\ nth_error days (List.length days - 1) = Some end_.
Proof.
  intros Hs He. unfold Date.diff_days.
  destruct (Z_le_gt_dec start end_) as [Hle | Hgt].
  - exists (asc_days start (Z.to_nat (end_ - start + 1))).
    rewrite length_asc_days, Z.abs_eq by lia.
    split; [now apply days_range_asc |].
    split; [reflexivity |].
    split; [reflexivity |].
    split; [lia |].
    unfold asc_days.
    split.
    + destruct (Z.to_nat (end_ - start + 1)) eqn:E; [lia |].
      simpl. f_equal. lia.
    + rewrite nth_error_map, nth_error_seq.
      destruct (Nat.ltb_spec (Z.to_nat (end_ - start + 1) - 1)
                  (Z.to_nat (end_ - start + 1))); [| lia].
      simpl. f_equal. lia.
  - exists (desc_days start (Z.to_nat (start - end_ + 1))).
    rewrite length_desc_days, Z.abs_neq by lia.
    split; [apply days_range_desc; auto; lia |].
    split; [f_equal; lia |].
    split; [lia |].
    split; [reflexivity |].
    unfold desc_days.
    split.
    + destruct (Z.to_nat (start - end_ + 1)) eqn:E; [lia |].
      simpl. f_equal. lia.
    + rewrite nth_error_map, nth_error_seq.
      destruct (Nat.ltb_spec (Z.to_nat (start - end_ + 1) - 1)
                  (Z.to_nat (start - end_ + 1))); [| lia].
      simpl. f_equal. lia.
Qed.

Lemma days_range_spec_witness :
  (Date.valid (Date.of_ymd 2024 1 1) /\ Date.valid (Date.of_ymd 2024 1 3))
  /\ days_range (Date.of_ymd 2024 1 1) (Date.of_ymd 2024 1 3)
     = Ok [738886; 738887; 738888]
  /\ days_range (Date.of_ymd 2024 1 3) (Date.of_ymd 2024 1 1)
     = Ok [738888; 738887; 738886].
Proof.
  assert (H1 : Date.valid (Date.of_ymd 2024 1 1))
    by (split; vm_compute; discriminate).
  assert (H3 : Date.valid (Date.of_ymd 2024 1 3))
    by (split; vm_compute; discriminate).
  split; [split; assumption |].
  destruct (days_range_spec (Date.of_ymd 2024 1 1) (Date.of_ymd 2024 1 3)
              H1 H3) as (up & -> & Hlen & Hup & _).
  destruct (days_range_spec (Date.of_ymd 2024 1 3) (Date.of_ymd 2024 1 1)
              H3 H1) as (down & -> & Hlen' & _ & Hdown & _).
  split; f_equal.
  - rewrite Hup, Hlen by (vm_compute; discriminate). reflexivity.
  - rewrite Hdown, Hlen' by reflexivity. reflexivity.
Defined.

(** ** Consecutive dates and sums of counts *)



Lemma total_commits_app (l1 l2 : list day_entry) :
  total_commits (l1 ++ l2) = total_commits l1 + total_commits l2.
Proof.
  induction l1 as [| e l1 IH]; simpl; [reflexivity |].
  unfold total_commits in *. simpl. rewrite IH. lia.
Qed.

Lemma total_commits_rev (l : list day_entry) :
  total_commits (rev l) = total_commits l.
Proof.
  induction l as [| e l IH]; [reflexivity |].
  simpl. rewrite total_commits_app, IH. unfold total_commits. simpl. lia.
Qed.

(** ** The aggregator *)

(** *** The walk sorted by time *)

Lemma insert_by_time_perm (t : Z) (l : list Z) :
  Permutation (insert_by_time t l) (t :: l).
Proof.
  induction l as [| x l IH]; [reflexivity |].
  cbn [insert_by_time]. destruct (x <=? t); [reflexivity |].
  rewrite IH. apply perm_swap.
Qed.

Lemma repo_walk_perm (repo : list Z) : Permutation (repo_walk repo) repo.
Proof.
  induction repo as [| t repo IH]; [reflexivity |].
  cbn [repo_walk fold_right]. rewrite insert_by_time_perm.
  now apply perm_skip.
Qed.

Lemma insert_by_time_sorted (t : Z) (l : list Z) :
  StronglySorted Z.ge l -> StronglySorted Z.ge (insert_by_time t l).
Proof.
  induction 1 as [| x l Hs IH Hx]; cbn [insert_by_time].
  - repeat constructor.
  - destruct (Z.leb_spec x t) as [Hle | Hgt].
    + constructor; [now constructor |].
      constructor; [lia |].
      revert Hx. apply List.Forall_impl. intros y Hy. lia.
    + constructor; [exact IH |].
      apply (Permutation_Forall (Permutation_sym (insert_by_time_perm t l))).
      constructor; [lia | exact Hx].
Qed.

Lemma repo_walk_sorted (repo : list Z) : StronglySorted Z.ge (repo_walk repo).
Proof.
  induction repo as [| t repo IH]; [constructor |].
  now apply insert_by_time_sorted.
Qed.

(** Two sorted lists of the same commit times are the same list. *)
Lemma sorted_perm_eq (l1 l2 : list Z) :
  StronglySorted Z.ge l1 -> StronglySorted Z.ge l2 -> Permutation l1 l2 ->
  l1 = l2.
Proof.
  intros H1. revert l2. induction H1 as [| x l1 Hs1 IH Hx]; intros l2 H2 Hp.
  - now apply Permutation_nil in Hp.
  - destruct H2 as [| y l2 Hs2 Hy].
    + symmetry in Hp. now apply Permutation_nil in Hp.
    + assert (Hxy : x = y).
      { assert (Hin1 : In x (y :: l2))
          by (apply (Permutation_in _ Hp); now left).
        assert (Hin2 : In y (x :: l1))
          by (apply (Permutation_in _ (Permutation_sym Hp)); now left).
        rewrite List.Forall_forall in Hx, Hy.
        destruct Hin1 as [-> | Hin1]; [reflexivity |].
        destruct Hin2 as [-> | Hin2]; [reflexivity |].
        specialize (Hx y Hin2). specialize (Hy x Hin1). lia. }
      subst y. f_equal. apply IH; [exact Hs2 |].
      now apply Permutation_cons_inv in Hp.
Qed.

Lemma repo_walk_order (repo1 repo2 : list Z) :
  Permutation repo1 repo2 -> repo_walk repo1 = repo_walk repo2.
Proof.
  intros Hp. apply sorted_perm_eq; try apply repo_walk_sorted.
  now rewrite !repo_walk_perm.
Qed.

(** A walk ends on a commit that none is older than. *)
Lemma sorted_last (l : list Z) (m : Z) :
  StronglySorted Z.ge l -> last l = Some m -> forall t, In t l -> m <= t.
Proof.
  induction 1 as [| x l Hs IH Hx]; intros Hlast t Hin; [destruct Hin |].
  destruct l as [| y l'].
  - destruct Hin as [<- | []]. injection Hlast as <-. lia.
  - change (last (y :: l') = Some m) in Hlast.
    destruct Hin as [<- | Hin]; [| now apply IH].
    rewrite List.Forall_forall in Hx.
    assert (Hm : In m (y :: l')) by now apply last_Some_elem_of, list_elem_of_In in Hlast.
    specialize (Hx m Hm). lia.
Qed.

Lemma repo_walk_last (repo : list Z) (oldest : Z) :
  In oldest repo -> (forall t, In t repo -> oldest <= t) ->
  last (repo_walk repo) = Some oldest.
Proof.
  intros Hin Hmin.
  destruct (last (repo_walk repo)) as [m |] eqn:Hlast.
  - f_equal. apply Z.le_antisymm.
    + apply (sorted_last _ _ (repo_walk_sorted repo) Hlast).
      now apply (Permutation_in _ (Permutation_sym (repo_walk_perm repo))).
    + apply Hmin. apply (Permutation_in _ (repo_walk_perm repo)).
      now apply last_Some_elem_of, list_elem_of_In in Hlast.
  - apply last_None in Hlast.
    apply (Permutation_in _ (Permutation_sym (repo_walk_perm repo))) in Hin.
    rewrite Hlast in Hin. destruct Hin.
Qed.

(** *** The dates of the commits *)

Section DatesFacts.

Variable local_date : Z -> result Date.t.

Lemma dates_of_cons (t : Z) (l : list Z) (ds : list Date.t) :
  dates_of local_date (t :: l) = Ok ds ->
  exists d ds', local_date t = Ok d /\ dates_of local_date l = Ok ds'
                /\ ds = d :: ds'.
Proof.
  cbn [dates_of]. destruct (local_date t) as [d | e]; [| discriminate].
  cbn [rbind]. destruct (dates_of local_date l) as [ds' | e]; [| discriminate].
  cbn [rbind]. intros [= <-]. now exists d, ds'.
Qed.

Lemma dates_of_length (l : list Z) (ds : list Date.t) :
  dates_of local_date l = Ok ds -> List.length ds = List.length l.
Proof.
  revert ds. induction l as [| t l IH]; intros ds H.
  - now injection H as <-.
  - apply dates_of_cons in H as (d & ds' & _ & H & ->).
    simpl. f_equal. now apply IH.
Qed.


Lemma dates_of_commit (l : list Z) (ds : list Date.t) (t : Z) :
  dates_of local_date l = Ok ds -> In t l ->
  exists d, local_date t = Ok d /\ In d ds.
Proof.
  revert ds. induction l as [| t' l IH]; intros ds H Hin; [destruct Hin |].
  apply dates_of_cons in H as (d' & ds' & Hd & H & ->).
  destruct Hin as [<- | Hin].
  - exists d'. split; [exact Hd | now left].
  - destruct (IH ds' H Hin) as (d & Hd' & Hin').
    exists d. split; [exact Hd' | now right].
Qed.

Lemma dates_of_commit_date (l : list Z) (ds : list Date.t) (t : Z)
  (d : Date.t) :
  dates_of local_date l = Ok ds -> In t l -> local_date t = Ok d -> In d ds.
Proof.
  intros H Hin Hd. destruct (dates_of_commit l ds t H Hin) as (d' & Hd' & Hin').
  congruence.
Qed.

Lemma dates_of_perm (l l' : list Z) :
  Permutation l l' ->
  forall ds, dates_of local_date l = Ok ds ->
             exists ds', dates_of local_date l' = Ok ds' /\ Permutation ds ds'.
Proof.
  induction 1 as [| t l l' Hp IH | t1 t2 l | l1 l2 l3 Hp1 IH1 Hp2 IH2];
    intros ds H.
  - exists ds. now split.
  - apply dates_of_cons in H as (d & ds0 & Hd & H & ->).
    destruct (IH ds0 H) as (ds' & H' & Hperm).
    exists (d :: ds'). cbn [dates_of]. rewrite Hd, H'. cbn [rbind].
    split; [reflexivity | now apply perm_skip].
  - apply dates_of_cons in H as (d1 & ds1 & Hd1 & H & ->).
    apply dates_of_cons in H as (d2 & ds2 & Hd2 & H & ->).
    exists (d2 :: d1 :: ds2). cbn [dates_of]. rewrite Hd1, Hd2, H.
    cbn [rbind]. split; [reflexivity | apply perm_swap].
  - destruct (IH1 ds H) as (ds2 & H2 & Hperm2).
    destruct (IH2 ds2 H2) as (ds3 & H3 & Hperm3).
    exists ds3. split; [exact H3 | now transitivity ds2].
Qed.

Lemma dates_of_last (l : list Z) (ds : list Date.t) (t : Z) (d : Date.t) :
  dates_of local_date l = Ok ds -> last l = Some t -> local_date t = Ok d ->
  last ds = Some d.
Proof.
  revert ds. induction l as [| t' l IH]; intros ds H Hlast Hd;
    [discriminate |].
  apply dates_of_cons in H as (d' & ds' & Hd' & H & ->).
  destruct l as [| t'' l'].
  - injection H as <-. injection Hlast as Heq. subst t'.
    assert (d' = d) by congruence. subst d'. reflexivity.
  - change (last (t'' :: l') = Some t) in Hlast.
    specialize (IH ds' H Hlast Hd).
    destruct ds' as [| d'' ds'']; [discriminate | exact IH].
Qed.

(** A repository whose commit times all have a date, seen from its walk. *)
Lemma dates_of_repo_walk (repo : list Z) (dates : list Date.t) :
  dates_of local_date repo = Ok dates ->
  exists walked, dates_of local_date (repo_walk repo) = Ok walked
                 /\ Permutation dates walked.
Proof.
  apply dates_of_perm. symmetry. apply repo_walk_perm.
Qed.

Lemma dates_of_repo (repo : list Z) (walked : list Date.t) :
  dates_of local_date (repo_walk repo) = Ok walked ->
  exists dates, dates_of local_date repo = Ok dates
                /\ Permutation dates walked.
Proof.
  intros H. destruct (dates_of_perm _ _ (repo_walk_perm repo) _ H)
    as (dates & Hd & Hp).
  exists dates. split; [exact Hd | now symmetry].
Qed.


End DatesFacts.

(** *** The loop *)

Section AggregatorFacts.

Variable today : Date.t.

Local Abbreviation counted := (commits_counted today).

Lemma commits_counted_snoc (dates : list Date.t) (d : Date.t) :
  counted (dates ++ [d]) = count_commit today (counted dates) d.
Proof. unfold commits_counted. now rewrite fold_left_app. Qed.

Lemma commits_on_snoc (dates : list Date.t) (d' d : Date.t) :
  commits_on (dates ++ [d']) d
  = commits_on dates d + (if d' =? d then 1 else 0).
Proof.
  unfold commits_on.
  rewrite count_occ_app. simpl.
  destruct (Z.eq_dec d' d) as [E | E].
  - rewrite (proj2 (Z.eqb_eq _ _) E). lia.
  - rewrite (proj2 (Z.eqb_neq _ _) E). lia.
Qed.

Lemma commits_on_nonneg (dates : list Date.t) (d : Date.t) :
  0 <= commits_on dates d.
Proof. unfold commits_on. lia. Qed.

Lemma commits_on_perm (dates dates' : list Date.t) (d : Date.t) :
  Permutation dates dates' -> commits_on dates d = commits_on dates' d.
Proof.
  intros Hp. unfold commits_on. f_equal. now apply Permutation_count_occ.
Qed.

Lemma walk_per_day (dates : list Date.t) (k : Z) :
  ws_per_day_commits (counted dates) !! k = per_day_entry today dates k.
Proof.
  revert k. induction dates as [| t dates IH] using rev_ind; intros k.
  - reflexivity.
  - rewrite commits_counted_snoc. unfold count_commit. simpl.
    unfold per_day_entry. rewrite commits_on_snoc.
    set (delta := Date.diff_days today t).
    pose proof (commits_on_nonneg dates (today - k)) as Hk.
    destruct (decide (delta = k)) as [E | E].
    + subst k. rewrite lookup_alter_eq.
      assert (Hd : today - delta = t)
        by (unfold delta, Date.diff_days; lia).
      rewrite Hd in *. rewrite Z.eqb_refl.
      rewrite (IH delta). unfold per_day_entry. rewrite Hd.
      destruct (commits_on dates t =? 0) eqn:E0.
      * rewrite lookup_insert_eq. simpl.
        apply Z.eqb_eq in E0. rewrite E0. reflexivity.
      * rewrite (IH delta). unfold per_day_entry. rewrite Hd, E0. simpl.
        destruct (commits_on dates t + 1 =? 0) eqn:E1;
          [apply Z.eqb_eq in E1; lia | reflexivity].
    + rewrite lookup_alter_ne by exact E.
      assert (Hne : (t =? today - k) = false).
      { apply Z.eqb_neq. unfold delta, Date.diff_days in E. lia. }
      rewrite Hne, Z.add_0_r.
      destruct (ws_per_day_commits (counted dates) !! delta).
      * apply IH.
      * rewrite lookup_insert_ne by exact E. apply IH.
Qed.

Lemma walk_nb_commits (dates : list Date.t) :
  ws_nb_commits (counted dates) = Z.of_nat (List.length dates).
Proof.
  induction dates as [| t dates IH] using rev_ind.
  - reflexivity.
  - rewrite commits_counted_snoc. simpl. rewrite IH, length_app. simpl. lia.
Qed.

Lemma walk_previous_date (dates : list Date.t) :
  ws_previous_date (counted dates) = last dates.
Proof.
  induction dates as [| t dates IH] using rev_ind.
  - reflexivity.
  - rewrite commits_counted_snoc, last_snoc. reflexivity.
Qed.

Lemma day_of_walk (dates : list Date.t) (day : Date.t) :
  day_of (ws_per_day_commits (counted dates)) today day
  = mk_day day (commits_on dates day).
Proof.
  unfold day_of. rewrite walk_per_day. unfold per_day_entry, Date.diff_days.
  replace (today - (today - day)) with day by lia.
  destruct (commits_on dates day =? 0) eqn:E0; simpl.
  - apply Z.eqb_eq in E0. now rewrite E0.
  - reflexivity.
Qed.

Lemma per_day_entry_perm (dates dates' : list Date.t) (k : Z) :
  Permutation dates dates' ->
  per_day_entry today dates k = per_day_entry today dates' k.
Proof.
  intros Hp. unfold per_day_entry.
  now rewrite (commits_on_perm dates dates' _ Hp).
Qed.

(** The dictionary does not depend on the order of the commits. *)
Lemma per_day_commits_perm (dates dates' : list Date.t) :
  Permutation dates dates' ->
  ws_per_day_commits (counted dates) = ws_per_day_commits (counted dates').
Proof.
  intros Hp. apply map_eq. intros k. rewrite !walk_per_day.
  now apply per_day_entry_perm.
Qed.

Variable local_date : Z -> result Date.t.

(** The loop raises what the first commit time without a date raises, and
    else counts the commits date by date. *)
Lemma walk_commits_dates (walk : list Z) :
  forall st,
    walk_commits local_date today walk st
    = let* dates := dates_of local_date walk in
      Ok (fold_left (count_commit today) dates st).
Proof.
  induction walk as [| t walk IH]; intros st; [reflexivity |].
  cbn [walk_commits dates_of]. unfold visit_commit.
  destruct (local_date t) as [d | e]; [| reflexivity].
  cbn [rbind]. rewrite IH.
  destruct (dates_of local_date walk) as [ds | e]; reflexivity.
Qed.

Lemma activity_of_walk_dates (walk : list Z) :
  activity_of_walk local_date today walk
  = let* dates := dates_of local_date walk in
    let* days := match last dates with
                 | Some first => days_range first today
                 | None => Raise TypeError
                 end in
    Ok (mk_activity (ws_per_day_commits (counted dates))
          (rev (map (fun d => mk_day d (commits_on dates d)) days))
          (Z.of_nat (List.length walk))).
Proof.
  unfold activity_of_walk. rewrite walk_commits_dates.
  destruct (dates_of local_date walk) as [dates | e] eqn:Hd; [| reflexivity].
  cbn [rbind]. fold (counted dates).
  rewrite walk_previous_date, walk_nb_commits, (dates_of_length _ _ _ Hd).
  destruct (match last dates with
            | Some first => days_range first today
            | None => Raise TypeError
            end) as [days | e]; [| reflexivity].
  cbn [rbind]. do 3 f_equal. apply map_ext. intros d. apply day_of_walk.
Qed.

(** What a result is made of. *)
Lemma retrieve_repo_activity_ok (repo : list Z) (a : activity) :
  retrieve_repo_activity local_date today repo = Ok a ->
  exists dates first days,
    dates_of local_date repo = Ok dates
    /\ In first dates
    /\ days_range first today = Ok days
    /\ per_day_commits a = ws_per_day_commits (counted dates)
    /\ nb_commits a = Z.of_nat (List.length repo)
    /\ continuous_days_commits a
       = rev (map (fun d => mk_day d (commits_on dates d)) days).
Proof.
  unfold retrieve_repo_activity.
  destruct repo as [| t0 repo0]; [discriminate |].
  cbn [repo_head rbind]. set (repo := t0 :: repo0).
  rewrite activity_of_walk_dates.
  destruct (dates_of local_date (repo_walk repo)) as [walked | e] eqn:Hw;
    [| discriminate].
  cbn [rbind].
  destruct (dates_of_repo local_date repo walked Hw) as (dates & Hd & Hp).
  destruct (last walked) as [first |] eqn:Hlast; [| discriminate].
  destruct (days_range first today) as [days | e] eqn:Hdays; [| discriminate].
  cbn [rbind]. intros [= <-].
  exists dates, first, days. split; [exact Hd |].
  split.
  { apply (Permutation_in _ (Permutation_sym Hp)).
    now apply last_Some_elem_of, list_elem_of_In in Hlast. }
  split; [exact Hdays |].
  cbn [per_day_commits nb_commits continuous_days_commits].
  split; [symmetry; now apply per_day_commits_perm |].
  split.
  { f_equal. exact (Permutation_length (repo_walk_perm repo)). }
  f_equal. apply map_ext. intros d. f_equal. symmetry.
  now apply commits_on_perm.
Qed.

(** The result for a repository whose commit times all have a date, from
    the date of its oldest commit. *)
Lemma retrieve_repo_activity_from (repo : list Z) (dates : list Date.t)
  (oldest : Z) (first : Date.t) :
  dates_of local_date repo = Ok dates ->
  In oldest repo -> (forall t, In t repo -> oldest <= t) ->
  local_date oldest = Ok first ->
  retrieve_repo_activity local_date today repo
  = let* days := days_range first today in
    Ok (mk_activity (ws_per_day_commits (counted dates))
          (rev (map (fun d => mk_day d (commits_on dates d)) days))
          (Z.of_nat (List.length repo))).
Proof.
  intros Hd Hin Hmin Hfirst. unfold retrieve_repo_activity.
  destruct repo as [| t0 repo0]; [destruct Hin |].
  cbn [repo_head rbind]. set (repo := t0 :: repo0) in *.
  rewrite activity_of_walk_dates.
  destruct (dates_of_repo_walk local_date repo dates Hd) as (walked & Hw & Hp).
  rewrite Hw. cbn [rbind].
  rewrite (dates_of_last local_date _ _ oldest first Hw
             (repo_walk_last repo oldest Hin Hmin) Hfirst).
  destruct (days_range first today) as [days | e]; [| reflexivity].
  cbn [rbind]. f_equal.
  rewrite (per_day_commits_perm dates walked Hp).
  rewrite (Permutation_length (repo_walk_perm repo)). f_equal.
  f_equal. apply map_ext. intros d. f_equal. symmetry.
  now apply commits_on_perm.
Qed.

End AggregatorFacts.

(** ** The timeline *)

Section TimelineFacts.

Lemma commits_on_cons (d' : Date.t) (dates : list Date.t) (d : Date.t) :
  commits_on (d' :: dates) d
  = (if d' =? d then 1 else 0) + commits_on dates d.
Proof.
  unfold commits_on. simpl.
  destruct (Z.eq_dec d' d) as [E | E].
  - rewrite (proj2 (Z.eqb_eq _ _) E). lia.
  - rewrite (proj2 (Z.eqb_neq _ _) E). lia.
Qed.

(** Each commit is counted on one day of a range that holds its date. *)
Lemma total_one_commit (x start : Z) (n : nat) :
  total_commits
    (map (fun d => mk_day d (if x =? d then 1 else 0)) (asc_days start n))
  = if (start <=? x) && (x <? start + Z.of_nat n) then 1 else 0.
Proof.
  induction n as [| n IH].
  - change (Z.of_nat 0) with 0.
    destruct (Z.leb_spec start x), (Z.ltb_spec x (start + 0)); simpl;
      reflexivity || lia.
  - unfold asc_days in *. rewrite seq_S, !map_app, total_commits_app, IH.
    simpl.
    destruct (Z.leb_spec start x), (Z.ltb_spec x (start + Z.of_nat n)),
      (Z.ltb_spec x (start + Z.of_nat (S n))),
      (Z.eqb_spec x (start + Z.of_nat n)); simpl; lia.
Qed.

Lemma total_commits_pointwise_add (f g : Z -> Z) (l : list Z) :
  total_commits (map (fun d => mk_day d (f d + g d)) l)
  = total_commits (map (fun d => mk_day d (f d)) l)
    + total_commits (map (fun d => mk_day d (g d)) l).
Proof.
  induction l as [| d l IH]; [reflexivity |].
  unfold total_commits in *. simpl. rewrite IH. lia.
Qed.

Lemma total_commits_in_range (dates : list Date.t) (start : Z) (n : nat) :
  total_commits (map (fun d => mk_day d (commits_on dates d))
                   (asc_days start n))
  = commits_within dates start (start + Z.of_nat n - 1).
Proof.
  unfold commits_within. induction dates as [| t dates IH].
  - unfold commits_on. simpl. induction (asc_days start n) as [| d l IHl];
      [reflexivity |].
    unfold total_commits in *. simpl. now rewrite IHl.
  - rewrite (map_ext _ (fun d => mk_day d
               ((if t =? d then 1 else 0) + commits_on dates d)))
      by (intros d; now rewrite commits_on_cons).
    rewrite total_commits_pointwise_add, total_one_commit, IH.
    cbn [List.filter].
    destruct (Z.leb_spec start t), (Z.ltb_spec t (start + Z.of_nat n)),
      (Z.leb_spec t (start + Z.of_nat n - 1));
      cbn [andb List.length]; lia.
Qed.

Lemma commits_within_all (dates : list Date.t) (lo hi : Date.t) :
  (forall d, In d dates -> lo <= d <= hi) ->
  commits_within dates lo hi = Z.of_nat (List.length dates).
Proof.
  intros Hin. unfold commits_within. f_equal. f_equal.
  induction dates as [| d dates IH]; [reflexivity |].
  cbn [List.filter].
  destruct (Hin d (or_introl eq_refl)) as [H1 H2].
  destruct (Z.leb_spec lo d), (Z.leb_spec d hi); try lia.
  cbn [andb]. f_equal. apply IH. intros d' Hd'. apply Hin. now right.
Qed.

Lemma total_commits_perm (l l' : list day_entry) :
  Permutation l l' -> total_commits l = total_commits l'.
Proof. induction 1; unfold total_commits in *; simpl; lia. Qed.

Variable local_date : Z -> result Date.t.
Variable today : Date.t.

(** The result for a repository whose oldest commit is not dated after
    today. *)
Lemma retrieve_repo_activity_forward (repo : list Z) (dates : list Date.t)
  (oldest : Z) (first : Date.t) :
  dates_of local_date repo = Ok dates ->
  In oldest repo -> (forall t, In t repo -> oldest <= t) ->
  local_date oldest = Ok first ->
  Date.valid today -> Date.valid first ->
  first <= today ->
  retrieve_repo_activity local_date today repo
  = Ok (mk_activity
          (ws_per_day_commits (commits_counted today dates))
          (rev (map (fun d => mk_day d (commits_on dates d))
                  (asc_days first (Z.to_nat (today - first + 1)))))
          (Z.of_nat (List.length repo))).
Proof.
  intros Hd Hin Hmin Hfirst Ht Hf Hle.
  rewrite (retrieve_repo_activity_from today local_date repo dates oldest
             first Hd Hin Hmin Hfirst).
  now rewrite days_range_asc by assumption.
Qed.

(** The same when the oldest commit is dated after today: the range is
    walked downwards, and the result goes from today up to that date. *)
Lemma retrieve_repo_activity_backward (repo : list Z) (dates : list Date.t)
  (oldest : Z) (first : Date.t) :
  dates_of local_date repo = Ok dates ->
  In oldest repo -> (forall t, In t repo -> oldest <= t) ->
  local_date oldest = Ok first ->
  Date.valid today -> Date.valid first ->
  today < first ->
  retrieve_repo_activity local_date today repo
  = Ok (mk_activity
          (ws_per_day_commits (commits_counted today dates))
          (map (fun d => mk_day d (commits_on dates d))
             (asc_days today (Z.to_nat (first - today + 1))))
          (Z.of_nat (List.length repo))).
Proof.
  intros Hd Hin Hmin Hfirst Ht Hf Hlt.
  rewrite (retrieve_repo_activity_from today local_date repo dates oldest
             first Hd Hin Hmin Hfirst).
  rewrite days_range_desc by (assumption || lia).
  cbn [rbind]. do 2 f_equal.
  rewrite desc_days_rev, map_rev, rev_involutive.
  replace (first - Z.of_nat (Z.to_nat (first - today + 1)) + 1) with today
    by lia.
  reflexivity.
Qed.

(** The timeline of a repository, from the date [first] of its oldest
    commit: its first entry, which is today's, its length and its
    entries. *)
Lemma timeline_shape (repo : list Z) (dates : list Date.t) (oldest : Z)
  (first : Date.t) :
  dates_of local_date repo = Ok dates ->
  In oldest repo -> (forall t, In t repo -> oldest <= t) ->
  local_date oldest = Ok first ->
  Date.valid today -> Date.valid first ->
  exists a rest,
    retrieve_repo_activity local_date today repo = Ok a
    /\ nb_commits a = Z.of_nat (List.length repo)
    /\ continuous_days_commits a
       = mk_day today (commits_on dates today) :: rest
    /\ List.length (continuous_days_commits a)
       = Z.to_nat (Z.abs (today - first) + 1)
    /\ Permutation (continuous_days_commits a)
         (map (fun d => mk_day d (commits_on dates d))
            (asc_days (Z.min first today)
               (Z.to_nat (Z.abs (today - first) + 1))))
    /\ (first <= today ->
        continuous_days_commits a
        = rev (map (fun d => mk_day d (commits_on dates d))
                 (asc_days first (Z.to_nat (today - first + 1)))))
    /\ (today < first ->
        map date (continuous_days_commits a)
        = asc_days today (Z.to_nat (first - today + 1))).
Proof.
  intros Hd Hin Hmin Hfirst Ht Hf.
  destruct (Z_le_gt_dec first today) as [Hle | Hgt].
  - rewrite (retrieve_repo_activity_forward repo dates oldest first)
      by assumption.
    eexists. exists (List.tl (rev (map (fun d => mk_day d
                                           (commits_on dates d))
                                 (asc_days first
                                    (Z.to_nat (today - first + 1)))))).
    split; [reflexivity |].
    cbn [continuous_days_commits nb_commits].
    split; [reflexivity |].
    rewrite Z.abs_eq, Z.min_l by lia.
    split.
    { destruct (Z.to_nat (today - first + 1)) as [| n] eqn:E; [lia |].
      unfold asc_days. rewrite seq_S, !map_app, rev_app_distr.
      cbn [map rev app List.tl].
      replace (first + Z.of_nat (0 + n)) with today by lia.
      reflexivity. }
    split; [now rewrite length_rev, length_map, length_asc_days |].
    split; [symmetry; apply Permutation_rev |].
    split; [reflexivity | lia].
  - rewrite (retrieve_repo_activity_backward repo dates oldest first)
      by (assumption || lia).
    eexists. exists (List.tl (map (fun d => mk_day d
                                      (commits_on dates d))
                            (asc_days today
                               (Z.to_nat (first - today + 1))))).
    split; [reflexivity |].
    cbn [continuous_days_commits nb_commits].
    split; [reflexivity |].
    rewrite Z.abs_neq, Z.min_r by lia.
    replace (- (today - first) + 1) with (first - today + 1) by lia.
    split.
    { destruct (Z.to_nat (first - today + 1)) as [| n] eqn:E; [lia |].
      unfold asc_days. cbn [seq map List.tl].
      replace (today + Z.of_nat 0) with today by (simpl; lia). reflexivity. }
    split; [now rewrite length_map, length_asc_days |].
    split; [reflexivity |].
    split; [lia |].
    intros _. rewrite map_map. simpl. now rewrite map_id.
Qed.

End TimelineFacts.




(** C5 (as amended): for a repository whose commit times all have a date,
    when every commit is dated between the date of the oldest commit, the
    one the walk ends on, and today, both included, the counts of the
    timeline add up to the number of commits, which is [nb_commits]. *)
Theorem count_conservation (local_date : Z -> result Date.t)
  (today : Date.t) (repo : list Z) (dates : list Date.t) (oldest : Z)
  (first : Date.t) :
  dates_of local_date repo = Ok dates ->
  In oldest repo -> (forall t, In t repo -> oldest <= t) ->
  local_date oldest = Ok first ->
  Date.valid today -> Date.valid first ->
  (forall d, In d dates -> Z.min first today <= d <= Z.max first today) ->
  exists a,
    retrieve_repo_activity local_date today repo = Ok a
    /\ total_commits (continuous_days_commits a) = Z.of_nat (List.length repo)
    /\ nb_commits a = Z.of_nat (List.length repo).
Proof.
  intros Hdates Hold Holdest Hdate Ht Hf Hin.
  destruct (timeline_shape local_date today repo dates oldest first
              Hdates Hold Holdest Hdate Ht Hf)
    as (a & rest & Ha & Hnb & _ & _ & Hperm & _).
  exists a. split; [exact Ha |]. split; [| exact Hnb].
  rewrite (total_commits_perm _ _ Hperm), total_commits_in_range.
  rewrite commits_within_all.
  - f_equal. apply (dates_of_length local_date). exact Hdates.
  - intros d Hd. specialize (Hin d Hd). lia.
Qed.

Lemma count_conservation_witness :
  exists a,
    retrieve_repo_activity utc_date (Date.of_ymd 2024 1 3) example_repo
    = Ok a
    /\ total_commits (continuous_days_commits a) = 4
    /\ nb_commits a = 4.
Proof.
  apply (count_conservation utc_date (Date.of_ymd 2024 1 3) example_repo
           [738886; 738888; 738886; 738886] (noon 2024 1 1)
           (Date.of_ymd 2024 1 1)).
  - reflexivity.
  - now left.
  - intros t [<- | [<- | [<- | [<- | []]]]]; vm_compute; discriminate.
  - reflexivity.
  - split; vm_compute; discriminate.
  - split; vm_compute; discriminate.
  - intros d [<- | [<- | [<- | [<- | []]]]]; split; vm_compute; discriminate.
Defined.

(** A repository of three commits, dated the 1st, the 2nd and the 5th of
    January 2024, read on the 3rd: the walk is sorted by time, the timeline
    goes from the 3rd back to the 1st, and the commit of the 5th is in none
    of its entries: the counts add up to 2, of 3 commits. *)
Lemma count_lost_after_today :
  repo_walk repo_with_future_commit
  = [noon 2024 1 5; noon 2024 1 2; noon 2024 1 1]
  /\ dates_of utc_date repo_with_future_commit
     = Ok [738886; 738890; 738887]
  /\ Date.of_ymd 2024 1 3 = 738888
  /\ timeline_of
       (retrieve_repo_activity utc_date (Date.of_ymd 2024 1 3)
          repo_with_future_commit)
     = Some [mk_day 738888 0; mk_day 738887 1; mk_day 738886 1]
  /\ (total_commits <$>
        timeline_of
          (retrieve_repo_activity utc_date (Date.of_ymd 2024 1 3)
             repo_with_future_commit)) = Some 2
  /\ List.length repo_with_future_commit = 3%nat.
Proof. repeat split. Qed.

(** C3: the commits of a repository given in two orders produce the same
    result, timeline included (same dates, same counts, same order), and
    the same exception when there is one: the walk sorts them by time. *)
Theorem order_independence (local_date : Z -> result Date.t)
  (today : Date.t) (repo1 repo2 : list Z) :
  Permutation repo1 repo2 ->
  retrieve_repo_activity local_date today repo1
  = retrieve_repo_activity local_date today repo2.
Proof.
  intros Hperm. unfold retrieve_repo_activity.
  rewrite (repo_walk_order repo1 repo2 Hperm).
  destruct repo1 as [| t1 repo1], repo2 as [| t2 repo2]; try reflexivity.
  - now apply Permutation_nil in Hperm.
  - symmetry in Hperm. now apply Permutation_nil in Hperm.
Qed.

Lemma order_independence_witness :
  retrieve_repo_activity utc_date (Date.of_ymd 2024 1 10)
    [noon 2024 1 5; noon 2024 1 8]
  = retrieve_repo_activity utc_date (Date.of_ymd 2024 1 10)
      [noon 2024 1 8; noon 2024 1 5]
  /\ timeline_of
       (retrieve_repo_activity utc_date (Date.of_ymd 2024 1 10)
          [noon 2024 1 5; noon 2024 1 8])
     = Some [mk_day 738895 0; mk_day 738894 0; mk_day 738893 1;
             mk_day 738892 0; mk_day 738891 0; mk_day 738890 1].
Proof.
  split; [| reflexivity].
  apply order_independence. apply perm_swap.
Defined.

(** C9: with no commit the aggregation raises, and nothing is written.  The
    head of the repository is unborn and reading it raises; the loop, were
    it reached with no commit to walk, would leave [previous_date] at
    [None] and raise as well; the pipeline stops at the first of the two,
    and the renderer itself raises before its first write when it is given
    no day. *)
Theorem empty_history_raises (local_date : Z -> result Date.t)
  (today : Date.t) (f : stream) :
  retrieve_repo_activity local_date today [] = Raise GitError
  /\ activity_of_walk local_date today [] = Raise TypeError
  /\ run_pipeline local_date today [] = ([], Raise GitError)
  /\ draw_activity [] f = ([], Raise ValueError).
Proof. repeat split. Qed.

(** A commit time without a date, outside the years 1 to 9999, makes the
    aggregation raise what the conversion raises, and nothing is
    written. *)
Lemma retrieve_repo_activity_raises (local_date : Z -> result Date.t)
  (today : Date.t) (repo : list Z) (e : exn) :
  repo <> [] ->
  dates_of local_date (repo_walk repo) = Raise e ->
  retrieve_repo_activity local_date today repo = Raise e
  /\ run_pipeline local_date today repo = ([], Raise e).
Proof.
  intros Hne Hd. unfold run_pipeline, retrieve_repo_activity.
  destruct repo as [| t repo0]; [congruence |].
  cbn [repo_head rbind]. rewrite activity_of_walk_dates, Hd.
  split; reflexivity.
Qed.

(** ** The renderer *)

Lemma columns_in_window :
  forallb (fun i => column_ok (Z.of_nat i)) (seq 0 168) = true.
Proof. vm_compute. reflexivity. Qed.

Lemma widths_in_window :
  forallb (fun i => width_ok (Z.of_nat i)) (seq 0 169) = true.
Proof. vm_compute. reflexivity. Qed.

Lemma column_in_window (n : Z) :
  0 <= n < 168 ->
  exists col, py_truediv n vertical_boxes = Ok col /\ Float64.to_int col = n / 7.
Proof.
  intros Hn. pose proof columns_in_window as H.
  rewrite forallb_forall in H. specialize (H (Z.to_nat n)).
  rewrite Z2Nat.id in H by lia. unfold column_ok in H.
  destruct (py_truediv n vertical_boxes) as [col | e].
  - exists col. split; [reflexivity |]. apply Z.eqb_eq, H, in_seq. lia.
  - discriminate H. apply in_seq. lia.
Qed.

Lemma svg_width_in_window (len : Z) :
  0 <= len <= 168 -> svg_width len = Ok ((len + 7) * 13 / 7).
Proof.
  intros Hn. pose proof widths_in_window as H.
  rewrite forallb_forall in H. specialize (H (Z.to_nat len)).
  rewrite Z2Nat.id in H by lia. unfold width_ok in H.
  destruct (svg_width len) as [w | e].
  - f_equal. apply Z.eqb_eq, H, in_seq. lia.
  - discriminate H. apply in_seq. lia.
Qed.

Lemma compute_color_of (nb m : Z) :
  0 <= nb <= m -> compute_color nb m = Ok (color_of nb m).
Proof.
  intros H. unfold color_of.
  destruct (compute_color_total nb m H) as (r & _ & ->). reflexivity.
Qed.

Lemma draw_cells_trace (f : stream) (max_commits len : Z)
  (days : list day_entry) :
  forall n,
    0 <= n -> n + Z.of_nat (List.length days) <= 168 ->
    (forall day, In day days -> 0 <= commits day <= max_commits) ->
    draw_cells f max_commits len n days
    = (expected_cells f max_commits len n days, Ok tt).
Proof.
  induction days as [| day rest IH]; intros n Hn Hlen Hc; [reflexivity |].
  cbn [draw_cells expected_cells]. unfold draw_cell.
  cbn [List.length] in Hlen.
  destruct (column_in_window n ltac:(lia)) as (col & Hcol & Hint).
  rewrite Hcol. unfold io_lift. cbn [io_bind]. rewrite Hint.
  rewrite compute_color_of by (apply Hc; now left).
  unfold print. cbn [io_bind].
  rewrite IH; [reflexivity | lia | lia |].
  intros d Hd. apply Hc. now right.
Qed.

Lemma fold_left_max_ge (l : list Z) :
  forall acc, acc <= fold_left Z.max l acc
              /\ forall x, In x l -> x <= fold_left Z.max l acc.
Proof.
  induction l as [| y l IH]; intros acc; simpl.
  - split; [lia | tauto].
  - destruct (IH (Z.max acc y)) as [H1 H2]. split; [lia |].
    intros x [<- | Hx]; [lia | now apply H2].
Qed.

Lemma window_max_ok (days : list day_entry) :
  days <> [] ->
  py_max (map commits days) = Ok (window_max days)
  /\ forall day, In day days -> commits day <= window_max days.
Proof.
  intros Hne. unfold window_max.
  destruct days as [| d days]; [congruence |]. cbn [map py_max].
  destruct (fold_left_max_ge (map commits days) (commits d)) as [H1 H2].
  split; [reflexivity |].
  intros day [<- | Hin]; [exact H1 |]. apply H2. now apply in_map.
Qed.

Lemma last_n_rev {A : Type} (n : nat) (l : list A) :
  last_n n (rev l) = rev (firstn n l).
Proof.
  unfold last_n. rewrite skipn_rev, length_rev. f_equal.
  destruct (Nat.le_ge_cases n (List.length l)) as [H | H].
  - f_equal. lia.
  - replace (List.length l - (List.length l - n))%nat with (List.length l) by lia.
    now rewrite !firstn_all2 by lia.
Qed.

Lemma in_firstn {A : Type} (n : nat) (l : list A) (x : A) :
  In x (firstn n l) -> In x l.
Proof.
  intros H. rewrite <- (firstn_skipn n l). apply in_or_app. now left.
Qed.

(** The whole trace of a rendering. *)
Lemma draw_activity_trace (days : list day_entry) (f : stream) :
  days <> [] ->
  (forall day, In day days -> 0 <= commits day) ->
  let window := rev (firstn 168 days) in
  let len := Z.of_nat (List.length window) in
  draw_activity days f
  = ((f, svg_header ((len + 7) * 13 / 7) 99 +:+ nl)
     :: expected_cells f (window_max window) len 0 window
     ++ [(Stdout, "</svg>" +:+ nl)], Ok tt).
Proof.
  intros Hne Hc window len. unfold draw_activity.
  change (Z.to_nat (weeks * 7)) with 168%nat. rewrite last_n_rev. fold window.
  assert (Hw : window <> []).
  { unfold window. destruct days; [congruence |]. simpl.
    intros H. now apply app_eq_nil in H as [_ H]. }
  assert (Hlen : (List.length window <= 168)%nat).
  { unfold window. rewrite length_rev. apply firstn_le_length. }
  destruct (window_max_ok window Hw) as [-> Hmax].
  unfold io_lift. cbn [io_bind]. fold len.
  rewrite svg_width_in_window by lia.
  unfold print at 1. cbn [io_bind].
  rewrite draw_cells_trace; [| lia | lia |].
  - reflexivity.
  - intros day Hin. split; [| now apply Hmax].
    apply Hc. unfold window in Hin. apply in_rev in Hin.
    now apply in_firstn in Hin.
Qed.

Lemma length_expected_cells (f : stream) (max_commits len : Z)
  (days : list day_entry) (n : Z) :
  List.length (expected_cells f max_commits len n days) = List.length days.
Proof.
  revert n. induction days as [| day rest IH]; intros n; [reflexivity |].
  cbn [expected_cells List.length]. now rewrite IH.
Qed.

Lemma nth_error_expected_cells (f : stream) (max_commits len : Z)
  (days : list day_entry) :
  forall (n : Z) (k : nat) (day : day_entry),
    nth_error days k = Some day ->
    nth_error (expected_cells f max_commits len n days) k
    = Some (f, cell_markup ((n + Z.of_nat k) / 7 * 13)
                 ((n + Z.of_nat k) mod 7 * 13)
                 (color_of (commits day) max_commits)
                 (cell_stroke len (n + Z.of_nat k))
                 (date day) (commits day) +:+ nl).
Proof.
  induction days as [| d rest IH]; intros n k day Hk.
  - destruct k; discriminate.
  - destruct k as [| k].
    + injection Hk as ->. cbn [expected_cells nth_error].
      now rewrite Z.add_0_r.
    + cbn [expected_cells nth_error]. cbn [nth_error] in Hk.
      rewrite (IH (n + 1) k day Hk).
      now replace (n + 1 + Z.of_nat k) with (n + Z.of_nat (S k)) by lia.
Qed.

Lemma expected_cells_stream (f : stream) (max_commits len : Z)
  (days : list day_entry) (n : Z) :
  Forall (fun w => fst w = f) (expected_cells f max_commits len n days).
Proof.
  revert n. induction days as [| day rest IH]; intros n; constructor;
    [reflexivity | apply IH].
Qed.

(** The cell at position [k] of the window shows the day at position
    [shown - 1 - k] of the list given most recent first. *)
Lemma nth_error_window (days : list day_entry) (k : nat) :
  (k < Nat.min 168 (List.length days))%nat ->
  nth_error (rev (firstn 168 days)) k
  = nth_error days (Nat.min 168 (List.length days) - 1 - k).
Proof.
  intros Hk. rewrite nth_error_rev, length_firstn.
  destruct (Nat.ltb_spec k (Nat.min 168 (List.length days))); [| lia].
  rewrite nth_error_firstn.
  destruct (Nat.ltb_spec (Nat.min 168 (List.length days) - S k) 168); [| lia].
  f_equal. lia.
Qed.

(** The writes of a rendering, one by one. *)
Lemma draw_activity_cells (days : list day_entry) (f : stream) :
  days <> [] ->
  (forall day, In day days -> 0 <= commits day) ->
  let shown := Nat.min (24 * 7) (List.length days) in
  let window := rev (firstn 168 days) in
  exists trace,
    draw_activity days f = (trace, Ok tt)
    /\ List.length trace = S (S shown)
    /\ (exists header, nth_error trace 0 = Some (f, header))
    /\ nth_error trace (S shown) = Some (Stdout, "</svg>" +:+ nl)
    /\ forall (k : nat) (day : day_entry),
         (k < shown)%nat ->
         nth_error days (shown - 1 - k) = Some day ->
         nth_error trace (S k)
         = Some (f, cell_markup (Z.of_nat k / 7 * 13) (Z.of_nat k mod 7 * 13)
                      (color_of (commits day) (window_max window))
                      (cell_stroke (Z.of_nat shown) (Z.of_nat k))
                      (date day) (commits day) +:+ nl).
Proof.
  intros Hne Hc shown window. eexists.
  split; [apply draw_activity_trace; assumption |].
  fold window.
  assert (Hshown : List.length window = shown).
  { unfold window. now rewrite length_rev, length_firstn. }
  rewrite Hshown.
  set (cells := expected_cells f (window_max window) (Z.of_nat shown) 0
                  window).
  assert (Hlen : List.length cells = shown).
  { unfold cells. now rewrite length_expected_cells. }
  split.
  { cbn [List.length]. rewrite length_app, Hlen. simpl. lia. }
  split; [eexists; reflexivity |].
  split.
  { cbn [nth_error]. rewrite nth_error_app2 by lia.
    rewrite Hlen, Nat.sub_diag. reflexivity. }
  intros k day Hk Hday. cbn [nth_error].
  rewrite nth_error_app1 by lia.
  unfold cells.
  rewrite (nth_error_expected_cells _ _ _ window 0 k day).
  - reflexivity.
  - unfold window. rewrite nth_error_window by exact Hk. exact Hday.
Qed.

Lemma string_app_assoc (a b c : string) : (a +:+ b) +:+ c = a +:+ b +:+ c.
Proof.
  induction a as [| ch a IH]; [reflexivity |].
  change ((String ch a +:+ b) +:+ c) with (String ch ((a +:+ b) +:+ c)).
  change (String ch a +:+ b +:+ c) with (String ch (a +:+ b +:+ c)).
  now rewrite IH.
Qed.

(** The text of a cell and of the header, character for character. *)
Lemma cell_markup_text (x y : Z) (fill stroke : string) (d : Date.t)
  (n : Z) :
  cell_markup x y fill stroke d n
  = svg_cell_text (py_str_int x) (py_str_int y) fill stroke
      (Date.isoformat d) (py_str_int n).
Proof.
  unfold cell_markup, quoted, cell_title.
  rewrite !string_app_assoc. reflexivity.
Qed.

Lemma svg_header_text_of (width : Z) :
  svg_header width 99 = svg_header_text (py_str_int width) "99".
Proof.
  unfold svg_header, quoted.
  rewrite !string_app_assoc. reflexivity.
Qed.

Lemma color_of_in (nb m : Z) :
  0 <= nb <= m -> In (color_of nb m) tier_colors.
Proof.
  intros H. unfold color_of.
  destruct (compute_color_total nb m H) as (r & _ & ->). apply tier_color_in.
Qed.

Lemma window_nonempty (days : list day_entry) :
  days <> [] -> rev (firstn 168 days) <> [].
Proof.
  intros Hne. destruct days; [congruence |]. simpl.
  intros H. now apply app_eq_nil in H as [_ H].
Qed.

(** What is written for the cell at position [k]: its text, with the
    colour that [compute_color] gives its day against the largest count of
    the window. *)
Lemma draw_activity_cell_text (days : list day_entry) (f : stream) :
  days <> [] ->
  (forall day, In day days -> 0 <= commits day) ->
  let shown := Nat.min (24 * 7) (List.length days) in
  forall (k : nat) (day : day_entry),
    (k < shown)%nat ->
    nth_error days (shown - 1 - k) = Some day ->
    exists fill,
      fill = color_of (commits day) (window_max (rev (firstn 168 days)))
      /\ In fill tier_colors
      /\ nth_error (fst (draw_activity days f)) (S k)
         = Some (f, svg_cell_text (py_str_int (Z.of_nat k / 7 * 13))
                      (py_str_int (Z.of_nat k mod 7 * 13)) fill
                      (if (k =? shown - 1)%nat
                       then "stroke-width:1px;stroke:red" else "")
                      (Date.isoformat (date day)) (py_str_int (commits day))
                    +:+ nl).
Proof.
  intros Hne Hc shown k day Hk Hday.
  destruct (draw_activity_cells days f Hne Hc)
    as (trace & -> & _ & _ & _ & Hcells).
  specialize (Hcells k day Hk Hday). cbn [fst].
  assert (Hstroke :
    cell_stroke (Z.of_nat shown) (Z.of_nat k)
    = (if (k =? shown - 1)%nat then "stroke-width:1px;stroke:red" else "")).
  { unfold cell_stroke. fold shown.
    destruct (Nat.eqb_spec k (shown - 1)),
      (Z.eqb_spec (Z.of_nat k) (Z.of_nat shown - 1)); reflexivity || lia. }
  fold shown in Hcells. rewrite Hstroke, cell_markup_text in Hcells.
  eexists. split; [reflexivity |]. split; [| exact Hcells].
  set (window := rev (firstn 168 days)).
  destruct (window_max_ok window (window_nonempty days Hne)) as [_ Hle].
  assert (Hin : In day window).
  { unfold window. rewrite <- nth_error_window in Hday by exact Hk.
    now apply nth_error_In in Hday. }
  apply color_of_in. split; [| now apply Hle].
  apply Hc. unfold window in Hin. apply in_rev in Hin.
  now apply in_firstn in Hin.
Qed.

(** C8: a non-empty list of days given most recent first is rendered as the
    header, one cell for each of the [min (24 * 7) n] most recent days, and
    the footer; the cells are in ascending chronological order, and the
    text written for the [k]-th one places it at column [k div 7] and row
    [k mod 7]: it starts with [<g><rect x="X" y="Y"], [X] and [Y] being
    [(k div 7) * (11 + 2)] and [(k mod 7) * (11 + 2)] in decimal, goes on
    with the size and the style, one of the five colours and the outline of
    the last cell, and ends with the date and the count of its day. *)
Theorem draw_activity_layout (days : list day_entry) (f : stream) :
  days <> [] ->
  (forall day, In day days -> 0 <= commits day) ->
  let shown := Nat.min (24 * 7) (List.length days) in
  exists trace,
    draw_activity days f = (trace, Ok tt)
    /\ List.length trace = S (S shown)
    /\ (exists header, nth_error trace 0 = Some (f, header))
    /\ nth_error trace (S shown) = Some (Stdout, "</svg>" +:+ nl)
    /\ forall (k : nat) (day : day_entry),
         (k < shown)%nat ->
         nth_error days (shown - 1 - k) = Some day ->
         exists fill,
           In fill tier_colors
           /\ nth_error trace (S k)
              = Some (f, svg_cell_text
                           (py_str_int (Z.of_nat k / 7 * (11 + 2)))
                           (py_str_int (Z.of_nat k mod 7 * (11 + 2))) fill
                           (if (k =? shown - 1)%nat
                            then "stroke-width:1px;stroke:red" else "")
                           (Date.isoformat (date day))
                           (py_str_int (commits day))
                         +:+ nl).
Proof.
  intros Hne Hc shown.
  destruct (draw_activity_cells days f Hne Hc)
    as (trace & Hrun & Hlen & Hhead & Hfoot & _).
  exists trace. repeat (split; [assumption |]).
  intros k day Hk Hday.
  destruct (draw_activity_cell_text days f Hne Hc k day Hk Hday)
    as (fill & _ & Hfill & Hcell).
  rewrite Hrun in Hcell. exists fill. split; [exact Hfill | exact Hcell].
Qed.

(** Nine days with one commit each: the cell of the most recent day is the
    ninth, in the second column and the second row. *)
Lemma draw_activity_layout_witness :
  exists trace,
    draw_activity (map (fun d => mk_day d 1) (desc_days 738888 9)) Stdout
    = (trace, Ok tt)
    /\ List.length trace = 11%nat
    /\ nth_error trace 10 = Some (Stdout, "</svg>" +:+ nl)
    /\ nth_error trace 9
       = Some (Stdout,
               svg_cell_text "13" "13" "#1e6823" "stroke-width:1px;stroke:red"
                 "2024-01-03" "1" +:+ nl)
    /\ nth_error trace 1
       = Some (Stdout,
               svg_cell_text "0" "0" "#1e6823" "" "2023-12-26" "1" +:+ nl).
Proof.
  destruct (draw_activity_layout
              (map (fun d => mk_day d 1) (desc_days 738888 9)) Stdout)
    as (trace & Hrun & Hlen & _ & Hfoot & Hcells).
  - discriminate.
  - intros day Hin. apply in_map_iff in Hin. destruct Hin as (d & <- & _).
    simpl. lia.
  - exists trace. split; [exact Hrun |]. split; [exact Hlen |].
    split; [exact Hfoot |].
    vm_compute in Hrun. injection Hrun as <-.
    split; reflexivity.
Defined.

Lemma cell_markup_title (x y : Z) (fill stroke : string) (d : Date.t)
  (n : Z) :
  occurs_in (cell_title d n) (cell_markup x y fill stroke d n +:+ nl).
Proof.
  unfold occurs_in, cell_markup.
  eexists. exists ("</g>" +:+ nl).
  rewrite <- !string_app_assoc. reflexivity.
Qed.

(** C2 (as amended): the text of every rendered cell holds a tooltip with
    the calendar date of its day and the phrase "N commits" for its count
    [N], whatever [N] is; this is the phrase of the specification for every
    count but 1. *)
Theorem tooltip_text (days : list day_entry) (f : stream) :
  days <> [] ->
  (forall day, In day days -> 0 <= commits day) ->
  let shown := Nat.min (24 * 7) (List.length days) in
  forall (k : nat) (day : day_entry),
    (k < shown)%nat ->
    nth_error days (shown - 1 - k) = Some day ->
    exists text,
      nth_error (fst (draw_activity days f)) (S k) = Some (f, text)
      /\ occurs_in ("<title>" +:+ Date.isoformat (date day) +:+ nl
                    +:+ (py_str_int (commits day) +:+ " commits")
                    +:+ "</title>") text
      /\ (commits day <> 1 ->
          occurs_in (cell_title_spec (date day) (commits day)) text).
Proof.
  intros Hne Hc shown k day Hk Hday.
  destruct (draw_activity_cells days f Hne Hc)
    as (trace & -> & _ & _ & _ & Hcells).
  eexists. split; [exact (Hcells k day Hk Hday) |].
  split; [apply cell_markup_title |].
  intros Hn1. unfold cell_title_spec, commit_phrase_spec.
  destruct (Z.eqb_spec (commits day) 1); [contradiction |].
  apply cell_markup_title.
Qed.

Lemma tooltip_text_witness :
  exists text,
    nth_error
      (fst (draw_activity
              [mk_day 738888 1; mk_day 738887 0; mk_day 738886 3] Stdout)) 1
    = Some (Stdout, text)
    /\ occurs_in ("<title>" +:+ Date.isoformat 738886 +:+ nl
                  +:+ (py_str_int 3 +:+ " commits") +:+ "</title>") text
    /\ (3 <> 1 -> occurs_in (cell_title_spec 738886 3) text).
Proof.
  apply (tooltip_text [mk_day 738888 1; mk_day 738887 0; mk_day 738886 3]
           Stdout ltac:(discriminate)
           ltac:(intros day [<- | [<- | [<- | []]]]; simpl; lia)
           0%nat (mk_day 738886 3)).
  - simpl. lia.
  - reflexivity.
Defined.

(** One commit on 2024-01-03: the tooltip reads "1 commits"; the title of
    the specification, with "1 commit", is not in the text. *)
Lemma singular_not_special_cased :
  nth_error (fst (draw_activity [mk_day (Date.of_ymd 2024 1 3) 1] Stdout)) 1
  = Some (Stdout,
          cell_markup 0 0 "#1e6823" "stroke-width:1px;stroke:red"
            (Date.of_ymd 2024 1 3) 1 +:+ nl)
  /\ cell_title (Date.of_ymd 2024 1 3) 1
     = "<title>2024-01-03" +:+ nl +:+ "1 commits</title>"
  /\ cell_title_spec (Date.of_ymd 2024 1 3) 1
     = "<title>2024-01-03" +:+ nl +:+ "1 commit</title>"
  /\ index 0 (cell_title (Date.of_ymd 2024 1 3) 1)
       (cell_markup 0 0 "#1e6823" "stroke-width:1px;stroke:red"
          (Date.of_ymd 2024 1 3) 1 +:+ nl)
     = Some 95%nat
  /\ index 0 (cell_title_spec (Date.of_ymd 2024 1 3) 1)
       (cell_markup 0 0 "#1e6823" "stroke-width:1px;stroke:red"
          (Date.of_ymd 2024 1 3) 1 +:+ nl)
     = None.
Proof. repeat split; vm_compute; reflexivity. Qed.

Lemma stream_eqb_refl (f : stream) : stream_eqb f f = true.
Proof. destruct f; simpl; auto using Nat.eqb_refl. Qed.

Lemma stream_eqb_neq (f g : stream) : f <> g -> stream_eqb f g = false.
Proof.
  intros Hne. destruct f, g; simpl; try reflexivity; try congruence.
  apply Nat.eqb_neq. congruence.
Qed.

Lemma written_to_app (f : stream) (w1 w2 : list (stream * string)) :
  written_to f (w1 ++ w2) = written_to f w1 +:+ written_to f w2.
Proof.
  induction w1 as [| [g s] w1 IH]; [reflexivity |].
  cbn [app written_to]. destruct (stream_eqb g f); [| exact IH].
  now rewrite IH, string_app_assoc.
Qed.

Lemma written_to_other (f g : stream) (w : list (stream * string)) :
  f <> g -> Forall (fun x => fst x = f) w -> written_to g w = EmptyString.
Proof.
  intros Hne Hall. induction Hall as [| [h s] w Hh _ IH]; [reflexivity |].
  simpl in Hh. subst h. cbn [written_to].
  now rewrite stream_eqb_neq.
Qed.

Lemma string_app_nil_r (s : string) : s +:+ EmptyString = s.
Proof.
  induction s as [| ch s IH]; [reflexivity |].
  change (String ch s +:+ EmptyString) with (String ch (s +:+ EmptyString)).
  now rewrite IH.
Qed.

(** C1, where the code departs from it: the header and the cells are written
    to [f], and the footer to standard output, whatever [f] is; a sink other
    than standard output receives the document without its last line. *)
Theorem footer_goes_to_stdout (days : list day_entry) (f : stream) :
  days <> [] ->
  (forall day, In day days -> 0 <= commits day) ->
  f <> Stdout ->
  exists header cells,
    draw_activity days f
    = ((f, header) :: cells ++ [(Stdout, "</svg>" +:+ nl)], Ok tt)
    /\ Forall (fun w => fst w = f) cells
    /\ written_to f (fst (draw_activity days f))
       = header +:+ written_to f cells
    /\ written_to Stdout (fst (draw_activity days f)) = "</svg>" +:+ nl.
Proof.
  intros Hne Hc Hf.
  rewrite (draw_activity_trace days f Hne Hc).
  do 2 eexists. split; [reflexivity |].
  split; [apply expected_cells_stream |].
  cbn [fst written_to]. rewrite stream_eqb_refl, (stream_eqb_neq f Stdout Hf).
  rewrite !written_to_app. cbn [written_to]. rewrite stream_eqb_refl.
  rewrite (stream_eqb_neq Stdout f) by congruence.
  rewrite (written_to_other f Stdout) by (auto using expected_cells_stream).
  rewrite !string_app_nil_r. split; reflexivity.
Qed.

Lemma footer_goes_to_stdout_witness :
  written_to (FileObj 0)
    (fst (draw_activity [mk_day (Date.of_ymd 2024 1 3) 1] (FileObj 0)))
  = svg_header 14 99 +:+ nl
    +:+ cell_markup 0 0 "#1e6823" "stroke-width:1px;stroke:red"
          (Date.of_ymd 2024 1 3) 1 +:+ nl
  /\ written_to Stdout
       (fst (draw_activity [mk_day (Date.of_ymd 2024 1 3) 1] (FileObj 0)))
     = "</svg>" +:+ nl.
Proof.
  destruct (footer_goes_to_stdout [mk_day (Date.of_ymd 2024 1 3) 1]
              (FileObj 0) ltac:(discriminate)
              ltac:(intros day [<- | []]; simpl; lia) ltac:(discriminate))
    as (header & cells & _ & _ & _ & Hout).
  split; [vm_compute; reflexivity | exact Hout].
Defined.

(** * More of the program

    Properties of the same functions beyond the ones above, and of [usage]
    and [run]. *)

(** ** [draw_activity]: the window, the header, the outline, the colours *)

(** X1: days older than the [24 * 7] most recent ones have no influence on
    a rendering, neither on the cells nor on the maximum nor on how it
    ends: rendering a list is rendering its first [24 * 7] days. *)
Theorem draw_activity_ignores_older_days (days : list day_entry) (f : stream) :
  draw_activity days f = draw_activity (firstn (24 * 7) days) f.
Proof.
  unfold draw_activity. change (Z.to_nat (weeks * 7)) with 168%nat.
  rewrite !last_n_rev. change (24 * 7)%nat with 168%nat.
  now rewrite firstn_firstn, Nat.min_id.
Qed.

(** X2: whenever there is a day to render, the first write is the header,
    to [f]: the fixed text of the document wrapper, which declares, in
    decimal, the width [floor ((len / 7 + 1) * 13)] for a window of [len]
    days, between 14 and 325, and the height 99; this holds whatever
    happens afterwards. *)
Theorem header_declares_dimensions (days : list day_entry) (f : stream) :
  days <> [] ->
  let len := Z.of_nat (Nat.min (24 * 7) (List.length days)) in
  exists rest r,
    draw_activity days f
    = ((f, svg_header_text (py_str_int ((len + 7) * 13 / 7)) "99" +:+ nl)
       :: rest, r)
    /\ 14 <= (len + 7) * 13 / 7 <= 325.
Proof.
  intros Hne len. unfold draw_activity.
  change (Z.to_nat (weeks * 7)) with 168%nat. rewrite last_n_rev.
  set (window := rev (firstn 168 days)).
  assert (Hlen : Z.of_nat (List.length window) = len).
  { unfold window, len. now rewrite length_rev, length_firstn. }
  destruct (window_max_ok window (window_nonempty days Hne)) as [-> _].
  unfold io_lift. cbn [io_bind]. rewrite Hlen.
  assert (Hl : 1 <= len <= 168).
  { unfold len. destruct days; [congruence |]. cbn [List.length]. lia. }
  rewrite svg_width_in_window by lia.
  unfold print at 1. cbn [io_bind].
  change (box_height * (vertical_boxes + spacing)) with 99.
  rewrite svg_header_text_of.
  destruct (let! _ := draw_cells f (window_max window) len 0 window
            in print "</svg>" Stdout) as [rest r].
  exists rest, r. split; [reflexivity |].
  split.
  - apply Z.div_le_lower_bound; lia.
  - apply Z.div_le_upper_bound; lia.
Qed.

Lemma header_declares_dimensions_witness :
  exists rest r,
    draw_activity example_days Stdout
    = ((Stdout, svg_header_text "18" "99" +:+ nl) :: rest, r)
    /\ 14 <= 18 <= 325.
Proof.
  exact (header_declares_dimensions
           example_days Stdout
           ltac:(discriminate)).
Defined.

(** X3: of the cells of a rendering, the last one, and only it, carries the
    red outline: in the text written for cell [k] the style is [fill:],
    one of the five colours and [;], followed by
    [stroke-width:1px;stroke:red] when [k] is the last position of the
    window and by nothing otherwise. *)
Theorem highlight_on_last_cell_only (days : list day_entry) (f : stream) :
  days <> [] ->
  (forall day, In day days -> 0 <= commits day) ->
  let shown := Nat.min (24 * 7) (List.length days) in
  forall (k : nat) (day : day_entry),
    (k < shown)%nat ->
    nth_error days (shown - 1 - k) = Some day ->
    exists fill,
      In fill tier_colors
      /\ nth_error (fst (draw_activity days f)) (S k)
         = Some (f, svg_cell_text (py_str_int (Z.of_nat k / 7 * 13))
                      (py_str_int (Z.of_nat k mod 7 * 13)) fill
                      (if (k =? shown - 1)%nat
                       then "stroke-width:1px;stroke:red" else "")
                      (Date.isoformat (date day)) (py_str_int (commits day))
                    +:+ nl).
Proof.
  intros Hne Hc shown k day Hk Hday.
  destruct (draw_activity_cell_text days f Hne Hc k day Hk Hday)
    as (fill & _ & Hfill & Hcell).
  exists fill. split; [exact Hfill | exact Hcell].
Qed.

Lemma highlight_on_last_cell_only_witness :
  (exists fill,
     In fill tier_colors
     /\ nth_error (fst (draw_activity example_days Stdout)) 3
        = Some (Stdout,
                svg_cell_text "0" "26" fill "stroke-width:1px;stroke:red"
                  "2024-01-03" "1" +:+ nl))
  /\ (exists fill,
        In fill tier_colors
        /\ nth_error (fst (draw_activity example_days Stdout)) 2
           = Some (Stdout,
                   svg_cell_text "0" "13" fill "" "2024-01-02" "0" +:+ nl)).
Proof.
  assert (Hc : forall day,
             In day example_days ->
             0 <= commits day)
    by (intros day [<- | [<- | [<- | []]]]; simpl; lia).
  split.
  - exact (highlight_on_last_cell_only example_days Stdout ltac:(discriminate) Hc
             2%nat (mk_day 738888 1) ltac:(simpl; lia) eq_refl).
  - exact (highlight_on_last_cell_only example_days Stdout ltac:(discriminate) Hc
             1%nat (mk_day 738887 0) ltac:(simpl; lia) eq_refl).
Defined.

Lemma written_to_same (f : stream) (w : list (stream * string)) :
  Forall (fun x => fst x = f) w ->
  written_to f w = fold_right (fun x s => snd x +:+ s) EmptyString w.
Proof.
  intros Hall. induction Hall as [| [g s] w Hg _ IH]; [reflexivity |].
  simpl in Hg. subst g. cbn [written_to fold_right snd].
  now rewrite stream_eqb_refl, IH.
Qed.

(** X4: with the default sink, standard output receives the header, the
    cells and the footer, in that order, and no other stream receives
    anything. *)
Theorem document_complete_on_stdout (days : list day_entry) :
  days <> [] ->
  (forall day, In day days -> 0 <= commits day) ->
  exists header cells,
    draw_activity days Stdout
    = ((Stdout, header) :: cells ++ [(Stdout, "</svg>" +:+ nl)], Ok tt)
    /\ written_to Stdout (fst (draw_activity days Stdout))
       = header +:+ written_to Stdout cells +:+ "</svg>" +:+ nl
    /\ forall g, g <> Stdout ->
                 written_to g (fst (draw_activity days Stdout)) = EmptyString.
Proof.
  intros Hne Hc. rewrite (draw_activity_trace days Stdout Hne Hc).
  do 2 eexists. split; [reflexivity |]. cbn [fst]. split.
  - cbn [written_to stream_eqb]. rewrite written_to_app.
    cbn [written_to stream_eqb]. now rewrite string_app_nil_r.
  - intros g Hg. cbn [written_to]. rewrite (stream_eqb_neq Stdout g) by congruence.
    rewrite written_to_app. cbn [written_to].
    rewrite (stream_eqb_neq Stdout g) by congruence.
    rewrite (written_to_other Stdout g) by
      (congruence || apply expected_cells_stream).
    reflexivity.
Qed.

Lemma document_complete_on_stdout_witness :
  exists header cells,
    draw_activity [mk_day 738888 1] Stdout
    = ((Stdout, header) :: cells ++ [(Stdout, "</svg>" +:+ nl)], Ok tt)
    /\ written_to Stdout (fst (draw_activity [mk_day 738888 1] Stdout))
       = header +:+ written_to Stdout cells +:+ "</svg>" +:+ nl
    /\ forall g, g <> Stdout ->
                 written_to g (fst (draw_activity [mk_day 738888 1] Stdout))
                 = EmptyString.
Proof.
  apply (document_complete_on_stdout [mk_day 738888 1]).
  - discriminate.
  - intros day [<- | []]. simpl. lia.
Defined.

Lemma color_of_max (m : Z) : 0 < m -> color_of m m = "#1e6823".
Proof.
  intros Hm. unfold color_of.
  rewrite compute_color_unfold, color_ratio_pos by nia. cbn [rbind].
  rewrite tier_color_tests.
  now rewrite (round_pos_threshold_ge_one m m 3 2) by lia.
Qed.

Lemma color_of_zero (m : Z) : color_of 0 m = "#eee".
Proof.
  unfold color_of. now rewrite compute_color_unfold, color_ratio_zero.
Qed.

Lemma fold_left_max_in (l : list Z) :
  forall acc, fold_left Z.max l acc = acc \/ In (fold_left Z.max l acc) l.
Proof.
  induction l as [| y l IH]; intros acc; simpl; [now left |].
  destruct (IH (Z.max acc y)) as [H | H]; [| now right; right].
  rewrite H. destruct (Z.max_spec acc y) as [[_ ->] | [_ ->]]; auto.
Qed.

Lemma window_max_attained (days : list day_entry) :
  days <> [] -> exists day, In day days /\ commits day = window_max days.
Proof.
  intros Hne. unfold window_max.
  destruct days as [| d days]; [congruence |]. cbn [map py_max].
  destruct (fold_left_max_in (map commits days) (commits d)) as [H | H].
  - exists d. split; [now left | now rewrite H].
  - apply in_map_iff in H. destruct H as (day & Hday & Hin).
    exists day. split; [now right | exact Hday].
Qed.

(** X5: in every rendering the text written for a day without commits has
    the neutral colour, [fill:#eee;], and the text written for a day with
    commits that no day of the window exceeds has the darkest one,
    [fill:#1e6823;], whatever the size of the counts. *)
Theorem busiest_day_darkest_idle_day_neutral (days : list day_entry)
  (f : stream) :
  days <> [] ->
  (forall day, In day days -> 0 <= commits day) ->
  let shown := Nat.min (24 * 7) (List.length days) in
  forall (k : nat) (day : day_entry),
    (k < shown)%nat ->
    nth_error days (shown - 1 - k) = Some day ->
    exists fill stroke,
      nth_error (fst (draw_activity days f)) (S k)
      = Some (f, svg_cell_text (py_str_int (Z.of_nat k / 7 * 13))
                   (py_str_int (Z.of_nat k mod 7 * 13)) fill stroke
                   (Date.isoformat (date day)) (py_str_int (commits day))
                 +:+ nl)
      /\ (commits day = 0 -> fill = "#eee")
      /\ (0 < commits day ->
          (forall other, In other (firstn (24 * 7) days) ->
                         commits other <= commits day) ->
          fill = "#1e6823").
Proof.
  intros Hne Hc shown k day Hk Hday.
  destruct (draw_activity_cell_text days f Hne Hc k day Hk Hday)
    as (fill & Hfill & _ & Hcell).
  exists fill. eexists. split; [exact Hcell |].
  split.
  - intros E. rewrite Hfill, E. apply color_of_zero.
  - intros Hpos Hmax. rewrite Hfill.
    set (window := rev (firstn 168 days)).
    destruct (window_max_ok window (window_nonempty days Hne)) as [_ Hle].
    destruct (window_max_attained window (window_nonempty days Hne))
      as (top & Htop & Heq).
    assert (Hday' : In day window).
    { unfold window. rewrite <- nth_error_window in Hday by exact Hk.
      now apply nth_error_In in Hday. }
    assert (commits day = window_max window).
    { apply Z.le_antisymm; [now apply Hle |].
      rewrite <- Heq. apply Hmax. unfold window in Htop.
      now apply in_rev in Htop. }
    rewrite <- H. now apply color_of_max.
Qed.

Lemma busiest_day_darkest_idle_day_neutral_witness :
  (exists stroke,
     nth_error (fst (draw_activity example_days Stdout)) 1
     = Some (Stdout,
             svg_cell_text "0" "0" "#1e6823" stroke "2024-01-01" "3"
             +:+ nl))
  /\ (exists stroke,
        nth_error (fst (draw_activity example_days Stdout)) 2
        = Some (Stdout,
                svg_cell_text "0" "13" "#eee" stroke "2024-01-02" "0"
                +:+ nl)).
Proof.
  assert (Hc : forall day,
             In day example_days ->
             0 <= commits day)
    by (intros day [<- | [<- | [<- | []]]]; simpl; lia).
  split.
  - destruct (busiest_day_darkest_idle_day_neutral example_days Stdout
                ltac:(discriminate) Hc 0%nat (mk_day 738886 3)
                ltac:(simpl; lia) eq_refl)
      as (fill & stroke & Hcell & _ & Hmax).
    exists stroke. rewrite <- Hmax; [exact Hcell | simpl; lia |].
    intros other [<- | [<- | [<- | []]]]; simpl; lia.
  - destruct (busiest_day_darkest_idle_day_neutral example_days Stdout
                ltac:(discriminate) Hc 1%nat (mk_day 738887 0)
                ltac:(simpl; lia) eq_refl)
      as (fill & stroke & Hcell & Hzero & _).
    exists stroke. rewrite <- Hzero; [exact Hcell | reflexivity].
Defined.

(** ** [compute_color] and [days_range] on all their inputs *)

Lemma of_ratio_outcomes (n d : Z) :
  (exists x, Float64.of_ratio n d = Ok x)
  \/ Float64.of_ratio n d = Raise OverflowError.
Proof.
  unfold Float64.of_ratio. destruct (n =? 0); [left; eauto |].
  destruct (Float64.overflows _); [now right | left; eauto].
Qed.

(** X6: on all integers, negative ones included, [compute_color] returns
    one of its five colours or raises [OverflowError] (when the quotient
    does not fit a float), and nothing else: it never divides by zero.  A
    maximum that is zero or negative, and a count of zero, give [#eee]. *)
Theorem compute_color_outcomes (nb m : Z) :
  ((exists color, compute_color nb m = Ok color /\ In color tier_colors)
   \/ compute_color nb m = Raise OverflowError)
  /\ (m <= 0 -> compute_color nb m = Ok "#eee")
  /\ (nb = 0 -> compute_color nb m = Ok "#eee").
Proof.
  rewrite compute_color_unfold. split; [| split].
  - unfold color_ratio. destruct (m >? 0) eqn:Hm.
    + unfold py_truediv. destruct (Z.eqb_spec m 0) as [-> | _]; [discriminate |].
      destruct (of_ratio_outcomes (Z.sgn m * nb) (Z.abs m)) as [[x ->] | ->].
      * left. eexists. split; [reflexivity | apply tier_color_in].
      * now right.
    + left. eexists. split; [reflexivity | apply tier_color_in].
  - intros Hm. now rewrite color_ratio_no_max.
  - intros ->. now rewrite color_ratio_zero.
Qed.

(** X7: swapping the two ends reverses the range: [days_range end_ start]
    yields the dates of [days_range start end_] in the opposite order. *)
Theorem days_range_reversed (start end_ : Date.t) :
  Date.valid start -> Date.valid end_ ->
  exists days,
    days_range start end_ = Ok days /\ days_range end_ start = Ok (rev days).
Proof.
  intros Hs He.
  destruct (Z_lt_le_dec end_ start) as [Hlt | Hle].
  - exists (desc_days start (Z.to_nat (start - end_ + 1))).
    split; [apply days_range_desc; auto; lia |].
    rewrite days_range_asc by (auto; lia).
    rewrite desc_days_rev, rev_involutive. do 2 f_equal. lia.
  - exists (asc_days start (Z.to_nat (end_ - start + 1))).
    split; [now apply days_range_asc |].
    rewrite days_range_desc by (auto; lia).
    rewrite desc_days_rev. do 3 f_equal. lia.
Qed.

Lemma days_range_reversed_witness :
  exists days,
    days_range (Date.of_ymd 2024 1 1) (Date.of_ymd 2024 1 3) = Ok days
    /\ days_range (Date.of_ymd 2024 1 3) (Date.of_ymd 2024 1 1)
       = Ok (rev days).
Proof.
  apply days_range_reversed; split; vm_compute; discriminate.
Defined.

(** ** [retrieve_repo_activity]: the dictionary and the counters *)

Lemma days_range_nonempty (start end_ : Date.t) (days : list Date.t) :
  days_range start end_ = Ok days -> days <> [].
Proof.
  unfold days_range.
  destruct (Z.to_nat (Z.abs (Date.diff_days end_ start) + 1)) as [| n] eqn:E;
    [lia |].
  cbn [days_range_loop]. destruct (if _ >? 0 then _ else _); [| discriminate].
  cbn [rbind]. destruct (days_range_loop _ _ _ n); [| discriminate].
  cbn [rbind]. intros [= <-]. discriminate.
Qed.

(** X8: the dictionary [per_day_commits] of a result, whatever the order
    the commits of the repository are given in: the key [k] is absent
    exactly when no commit is [k] days old, and otherwise holds the date
    [k] days before today with the number of commits of that date, which
    is at least 1. *)
Theorem per_day_commits_lookup (local_date : Z -> result Date.t)
  (today : Date.t) (repo : list Z) (a : activity) (k : Z) :
  retrieve_repo_activity local_date today repo = Ok a ->
  exists dates,
    dates_of local_date repo = Ok dates
    /\ (per_day_commits a !! k = None
        <-> forall d, In d dates -> Date.diff_days today d <> k)
    /\ (forall e, per_day_commits a !! k = Some e ->
                  date e = today - k
                  /\ commits e = commits_on dates (today - k)
                  /\ 1 <= commits e).
Proof.
  intros Ha. apply retrieve_repo_activity_ok in Ha
    as (dates & _ & _ & Hdates & _ & _ & -> & _).
  exists dates. split; [exact Hdates |].
  rewrite walk_per_day. unfold per_day_entry, Date.diff_days.
  pose proof (commits_on_nonneg dates (today - k)) as Hn.
  destruct (Z.eqb_spec (commits_on dates (today - k)) 0) as [E | E].
  - split; [| discriminate]. split; [| reflexivity].
    intros _ d Hin Hk. unfold commits_on in E.
    assert (Hc : count_occ Z.eq_dec dates (today - k) = O) by lia.
    apply (proj2 (count_occ_not_In Z.eq_dec _ _)) in Hc. apply Hc.
    now replace (today - k) with d by lia.
  - split.
    + split; [discriminate |]. intros Hnone. exfalso. apply E.
      unfold commits_on. apply (f_equal Z.of_nat (y := O)).
      apply count_occ_not_In. intros Hin. apply (Hnone _ Hin). lia.
    + intros e [= <-]. cbn [date commits]. repeat split. lia.
Qed.

Lemma per_day_commits_lookup_witness :
  exists a,
    retrieve_repo_activity utc_date (Date.of_ymd 2024 1 3) example_repo
    = Ok a
    /\ per_day_commits a !! 1 = None
    /\ (forall e, per_day_commits a !! 2 = Some e ->
                  date e = 738886 /\ commits e = 3).
Proof.
  eexists. split; [reflexivity |].
  split.
  - destruct (per_day_commits_lookup utc_date (Date.of_ymd 2024 1 3)
                example_repo _ 1 eq_refl) as (dates & Hd & Hnone & _).
    apply Hnone. injection Hd as <-.
    intros d [<- | [<- | [<- | [<- | []]]]]; vm_compute; discriminate.
  - intros e He.
    destruct (per_day_commits_lookup utc_date (Date.of_ymd 2024 1 3)
                example_repo _ 2 eq_refl) as (dates & Hd & _ & Hsome).
    destruct (Hsome e He) as (Hdate & Hn & _).
    injection Hd as <-. split; [exact Hdate | exact Hn].
Defined.

Lemma per_day_total_insert (m : gmap Z day_entry) (k : Z) (e : day_entry) :
  m !! k = None -> per_day_total (<[k := e]> m) = commits e + per_day_total m.
Proof.
  intros Hk. unfold per_day_total.
  rewrite map_fold_insert_L; [reflexivity | | exact Hk].
  intros. lia.
Qed.

Lemma per_day_total_lookup (m : gmap Z day_entry) (k : Z) (e : day_entry) :
  m !! k = Some e ->
  per_day_total m = commits e + per_day_total (delete k m).
Proof.
  intros Hk. rewrite <- (insert_delete_id m k e Hk) at 1.
  apply per_day_total_insert. apply lookup_delete_eq.
Qed.

Lemma per_day_total_count (today : Date.t) (st : walk_state) (d : Date.t) :
  per_day_total (ws_per_day_commits (count_commit today st d))
  = per_day_total (ws_per_day_commits st) + 1.
Proof.
  unfold count_commit. cbn [ws_per_day_commits].
  set (k := Date.diff_days today d).
  destruct (ws_per_day_commits st !! k) as [e |] eqn:Hk.
  - rewrite (per_day_total_lookup (alter add_commit k _) k (add_commit e))
      by (now rewrite lookup_alter_eq, Hk).
    rewrite (per_day_total_lookup (ws_per_day_commits st) k e Hk).
    assert (Hd : delete k (alter add_commit k (ws_per_day_commits st))
                 = delete k (ws_per_day_commits st)).
    { apply map_eq. intros j. destruct (decide (k = j)) as [<- | Hj].
      - now rewrite !lookup_delete_eq.
      - now rewrite !lookup_delete_ne, lookup_alter_ne by exact Hj. }
    rewrite Hd. cbn [add_commit commits]. lia.
  - rewrite alter_insert_eq, per_day_total_insert by exact Hk.
    cbn [add_commit commits]. lia.
Qed.

Lemma per_day_total_walk (today : Date.t) (dates : list Date.t) :
  per_day_total (ws_per_day_commits (commits_counted today dates))
  = Z.of_nat (List.length dates).
Proof.
  induction dates as [| d dates IH] using rev_ind; [reflexivity |].
  rewrite commits_counted_snoc, per_day_total_count, IH, length_app.
  simpl. lia.
Qed.

(** X9: the counts held in [per_day_commits] add up to [nb_commits], the
    number of commits of the repository, in every result: the dictionary
    loses no commit, even where the timeline does. *)
Theorem per_day_commits_conserve_count (local_date : Z -> result Date.t)
  (today : Date.t) (repo : list Z) (a : activity) :
  retrieve_repo_activity local_date today repo = Ok a ->
  per_day_total (per_day_commits a) = nb_commits a
  /\ nb_commits a = Z.of_nat (List.length repo).
Proof.
  intros Ha. apply retrieve_repo_activity_ok in Ha
    as (dates & _ & _ & Hdates & _ & _ & -> & -> & _).
  split; [| reflexivity].
  rewrite per_day_total_walk. f_equal.
  exact (dates_of_length local_date _ _ Hdates).
Qed.

Lemma per_day_commits_conserve_count_witness :
  exists a,
    retrieve_repo_activity utc_date (Date.of_ymd 2024 1 3)
      repo_with_future_commit = Ok a
    /\ per_day_total (per_day_commits a) = 3
    /\ total_commits (continuous_days_commits a) = 2.
Proof.
  eexists. split; [reflexivity |]. split; [| reflexivity].
  destruct (per_day_commits_conserve_count utc_date (Date.of_ymd 2024 1 3)
              repo_with_future_commit _ eq_refl) as [-> ->].
  reflexivity.
Defined.

(** ** [retrieve_repo_activity]: the timeline of any repository *)

Lemma total_commits_nonneg_entries (dates : list Date.t)
  (days : list Date.t) (e : day_entry) :
  In e (map (fun d => mk_day d (commits_on dates d)) days) ->
  0 <= commits e.
Proof.
  intros Hin. apply in_map_iff in Hin. destruct Hin as (d & <- & _).
  apply commits_on_nonneg.
Qed.

(** X10: for every repository whose commit times all have a date, the
    timeline has as many entries as there are days between the date of the
    oldest commit, the one the walk ends on, and today, both included, its
    counts are never negative, and they add up to the number of commits
    dated within that span: commits dated outside it are the only ones
    left out. *)
Theorem timeline_counts_commits_in_span (local_date : Z -> result Date.t)
  (today : Date.t) (repo : list Z) (dates : list Date.t) (oldest : Z)
  (first : Date.t) :
  dates_of local_date repo = Ok dates ->
  In oldest repo -> (forall t, In t repo -> oldest <= t) ->
  local_date oldest = Ok first ->
  Date.valid today -> (forall d, In d dates -> Date.valid d) ->
  exists a,
    retrieve_repo_activity local_date today repo = Ok a
    /\ List.length (continuous_days_commits a)
       = Z.to_nat (Z.abs (today - first) + 1)
    /\ total_commits (continuous_days_commits a)
       = commits_within dates (Z.min first today) (Z.max first today)
    /\ (forall e, In e (continuous_days_commits a) -> 0 <= commits e).
Proof.
  intros Hdates Hold Holdest Hdate Ht Hvalid.
  pose proof (Hvalid first (dates_of_commit_date local_date repo dates oldest
                              first Hdates Hold Hdate)) as Hf.
  destruct (timeline_shape local_date today repo dates oldest first
              Hdates Hold Holdest Hdate Ht Hf)
    as (a & rest & Ha & _ & _ & Hlen & Hperm & _).
  exists a. split; [exact Ha |]. split; [exact Hlen |]. split.
  - rewrite (total_commits_perm _ _ Hperm), total_commits_in_range.
    f_equal. lia.
  - intros e Hin. apply (Permutation_in _ Hperm) in Hin.
    now apply total_commits_nonneg_entries in Hin.
Qed.

Lemma timeline_counts_commits_in_span_witness :
  exists a,
    retrieve_repo_activity utc_date (Date.of_ymd 2024 1 3)
      repo_with_future_commit = Ok a
    /\ List.length (continuous_days_commits a) = 3%nat
    /\ total_commits (continuous_days_commits a) = 2.
Proof.
  destruct (timeline_counts_commits_in_span utc_date (Date.of_ymd 2024 1 3)
              repo_with_future_commit [738886; 738890; 738887]
              (noon 2024 1 1) (Date.of_ymd 2024 1 1))
    as (a & Ha & Hlen & Htotal & _).
  - reflexivity.
  - now left.
  - intros t [<- | [<- | [<- | []]]]; vm_compute; discriminate.
  - reflexivity.
  - split; vm_compute; discriminate.
  - intros d [<- | [<- | [<- | []]]]; split; vm_compute; discriminate.
  - exists a. split; [exact Ha |]. split; [exact Hlen |].
    rewrite Htotal. reflexivity.
Defined.

(** X11: when the oldest commit of a repository whose commit times all
    have a date is dated after today, the range is walked downwards and the
    timeline returned goes from today up to that date, oldest first, its
    first entry still being today's. *)
Theorem timeline_of_future_walk_starts_today
  (local_date : Z -> result Date.t) (today : Date.t) (repo : list Z)
  (dates : list Date.t) (oldest : Z) (first : Date.t) :
  dates_of local_date repo = Ok dates ->
  In oldest repo -> (forall t, In t repo -> oldest <= t) ->
  local_date oldest = Ok first ->
  Date.valid today -> (forall d, In d dates -> Date.valid d) ->
  today < first ->
  exists a,
    retrieve_repo_activity local_date today repo = Ok a
    /\ map date (continuous_days_commits a)
       = asc_days today (Z.to_nat (first - today + 1))
    /\ nth_error (continuous_days_commits a) 0
       = Some (mk_day today (commits_on dates today)).
Proof.
  intros Hdates Hold Holdest Hdate Ht Hvalid Hlt.
  pose proof (Hvalid first (dates_of_commit_date local_date repo dates oldest
                              first Hdates Hold Hdate)) as Hf.
  destruct (timeline_shape local_date today repo dates oldest first
              Hdates Hold Holdest Hdate Ht Hf)
    as (a & rest & Ha & _ & Hhead & _ & _ & _ & Hasc).
  exists a. split; [exact Ha |]. split; [now apply Hasc |].
  now rewrite Hhead.
Qed.

Lemma timeline_of_future_walk_starts_today_witness :
  exists a,
    retrieve_repo_activity utc_date (Date.of_ymd 2024 1 3)
      [noon 2024 1 5] = Ok a
    /\ map date (continuous_days_commits a) = [738888; 738889; 738890].
Proof.
  destruct (timeline_of_future_walk_starts_today utc_date
              (Date.of_ymd 2024 1 3) [noon 2024 1 5] [738890]
              (noon 2024 1 5) (Date.of_ymd 2024 1 5))
    as (a & Ha & Hdates & _).
  - reflexivity.
  - now left.
  - intros t [<- | []]. lia.
  - reflexivity.
  - split; vm_compute; discriminate.
  - intros d [<- | []]; split; vm_compute; discriminate.
  - vm_compute. reflexivity.
  - exists a. split; [exact Ha |]. rewrite Hdates. reflexivity.
Defined.

(** ** The pipeline and [run] *)

Lemma trace_to_stdout (days : list day_entry) :
  days <> [] ->
  (forall day, In day days -> 0 <= commits day) ->
  exists trace,
    draw_activity days Stdout = (trace, Ok tt)
    /\ Forall (fun w => fst w = Stdout) trace
    /\ List.length trace = S (S (Nat.min 168 (List.length days)))
    /\ nth_error trace (S (Nat.min 168 (List.length days)))
       = Some (Stdout, "</svg>" +:+ nl).
Proof.
  intros Hne Hc.
  destruct (draw_activity_cells days Stdout Hne Hc)
    as (trace & Hrun & Hlen & _ & Hfoot & _).
  exists trace. split; [exact Hrun |].
  split; [| split; [exact Hlen | exact Hfoot]].
  rewrite (draw_activity_trace days Stdout Hne Hc) in Hrun.
  injection Hrun as <-. constructor; [reflexivity |].
  apply Forall_app. split; [apply expected_cells_stream |].
  constructor; [reflexivity | constructor].
Qed.

(** X12: the pipeline on a repository with at least one commit, whose
    commit times all have a date, returns normally and writes to standard
    output only: the header, one cell per day between the date of the
    oldest commit and today, at most [24 * 7] of them, and the footer; the
    last cell is today's: its text has the red outline, today's date and
    today's number of commits. *)
Theorem pipeline_renders_today_last (local_date : Z -> result Date.t)
  (today : Date.t) (repo : list Z) (dates : list Date.t) (oldest : Z)
  (first : Date.t) :
  dates_of local_date repo = Ok dates ->
  In oldest repo -> (forall t, In t repo -> oldest <= t) ->
  local_date oldest = Ok first ->
  Date.valid today -> (forall d, In d dates -> Date.valid d) ->
  let shown := Nat.min (24 * 7) (Z.to_nat (Z.abs (today - first) + 1)) in
  exists trace fill,
    run_pipeline local_date today repo = (trace, Ok tt)
    /\ List.length trace = S (S shown)
    /\ Forall (fun w => fst w = Stdout) trace
    /\ In fill tier_colors
    /\ nth_error trace shown
       = Some (Stdout,
               svg_cell_text (py_str_int (Z.of_nat (shown - 1) / 7 * 13))
                 (py_str_int (Z.of_nat (shown - 1) mod 7 * 13)) fill
                 "stroke-width:1px;stroke:red" (Date.isoformat today)
                 (py_str_int (commits_on dates today)) +:+ nl)
    /\ nth_error trace (S shown) = Some (Stdout, "</svg>" +:+ nl).
Proof.
  intros Hdates Hold Holdest Hdate Ht Hvalid shown.
  pose proof (Hvalid first (dates_of_commit_date local_date repo dates oldest
                              first Hdates Hold Hdate)) as Hf.
  destruct (timeline_shape local_date today repo dates oldest first
              Hdates Hold Holdest Hdate Ht Hf)
    as (a & rest & Ha & _ & Hhead & Hlen & Hperm & _).
  assert (Hne : continuous_days_commits a <> [])
    by (rewrite Hhead; discriminate).
  assert (Hc : forall day, In day (continuous_days_commits a) ->
                           0 <= commits day).
  { intros e Hin. apply (Permutation_in _ Hperm) in Hin.
    now apply total_commits_nonneg_entries in Hin. }
  destruct (trace_to_stdout (continuous_days_commits a) Hne Hc)
    as (trace & Hrun & Hall & Hlen' & Hfoot).
  pose proof (draw_activity_cell_text (continuous_days_commits a) Stdout
                Hne Hc) as Hcells.
  cbv zeta in Hcells.
  change (24 * 7)%nat with 168%nat in Hcells.
  rewrite Hlen in Hlen', Hfoot, Hcells.
  change 168%nat with (24 * 7)%nat in Hlen', Hfoot, Hcells.
  fold shown in Hlen', Hfoot, Hcells.
  assert (Hs : (1 <= shown)%nat) by (unfold shown; lia).
  specialize (Hcells (shown - 1)%nat (mk_day today (commits_on dates today))
                ltac:(lia)).
  replace (shown - 1 - (shown - 1))%nat with O in Hcells by lia.
  rewrite Hhead in Hcells.
  destruct (Hcells eq_refl) as (fill & _ & Hfill & Hcell).
  rewrite <- Hhead, Hrun in Hcell. cbn [fst date commits] in Hcell.
  rewrite Nat.eqb_refl in Hcell.
  replace (S (shown - 1)) with shown in Hcell by lia.
  exists trace, fill.
  split.
  { unfold run_pipeline. rewrite Ha. unfold io_lift. cbn [io_bind].
    now rewrite Hrun. }
  split; [exact Hlen' |]. split; [exact Hall |]. split; [exact Hfill |].
  split; [exact Hcell | exact Hfoot].
Qed.

Lemma pipeline_renders_today_last_witness :
  exists trace fill,
    run_pipeline utc_date (Date.of_ymd 2024 1 3) example_repo
    = (trace, Ok tt)
    /\ List.length trace = 5%nat
    /\ In fill tier_colors
    /\ nth_error trace 3
       = Some (Stdout,
               svg_cell_text "0" "26" fill "stroke-width:1px;stroke:red"
                 "2024-01-03" "1" +:+ nl).
Proof.
  destruct (pipeline_renders_today_last utc_date (Date.of_ymd 2024 1 3)
              example_repo [738886; 738888; 738886; 738886]
              (noon 2024 1 1) (Date.of_ymd 2024 1 1))
    as (trace & fill & Hrun & Hlen & _ & Hfill & Hlast & _).
  - reflexivity.
  - now left.
  - intros t [<- | [<- | [<- | [<- | []]]]]; vm_compute; discriminate.
  - reflexivity.
  - split; vm_compute; discriminate.
  - intros d [<- | [<- | [<- | [<- | []]]]]; split; vm_compute; discriminate.
  - exists trace, fill. split; [exact Hrun |]. split; [exact Hlen |].
    split; [exact Hfill | exact Hlast].
Defined.

(** The pipeline either raises before it writes anything, or writes a whole
    document to standard output. *)
Lemma run_pipeline_outcomes (local_date : Z -> result Date.t)
  (today : Date.t) (repo : list Z) :
  (exists e, run_pipeline local_date today repo = ([], Raise e))
  \/ (exists trace,
        run_pipeline local_date today repo = (trace, Ok tt)
        /\ Forall (fun w => fst w = Stdout) trace
        /\ (3 <= List.length trace)%nat
        /\ nth_error trace (List.length trace - 1)
           = Some (Stdout, "</svg>" +:+ nl)).
Proof.
  unfold run_pipeline.
  destruct (retrieve_repo_activity local_date today repo) as [a | e] eqn:Ha.
  2:{ left. exists e. reflexivity. }
  right. apply retrieve_repo_activity_ok in Ha
    as (dates & first & days & _ & _ & Hdays & _ & _ & Htl).
  apply days_range_nonempty in Hdays.
  assert (Hne : continuous_days_commits a <> []).
  { rewrite Htl. destruct days as [| d days]; [congruence |]. simpl.
    intros H. now apply app_eq_nil in H as [_ H]. }
  assert (Hc : forall day, In day (continuous_days_commits a) ->
                           0 <= commits day).
  { intros e Hin. rewrite Htl in Hin. apply in_rev in Hin.
    now apply total_commits_nonneg_entries in Hin. }
  destruct (trace_to_stdout (continuous_days_commits a) Hne Hc)
    as (trace & Hrun & Hall & Hlen & Hfoot).
  exists trace. unfold io_lift. cbn [io_bind]. rewrite Hrun.
  split; [reflexivity |]. split; [exact Hall |].
  assert (1 <= List.length (continuous_days_commits a))%nat
    by (destruct (continuous_days_commits a); [congruence | simpl; lia]).
  split; [lia |].
  rewrite Hlen. replace (S (S _) - 1)%nat
    with (S (Nat.min 168 (List.length (continuous_days_commits a)))) by lia.
  exact Hfoot.
Qed.

(** X13: how [run] ends.  It exits with code 1, having written one line to
    standard error and nothing to standard output, when it does not get
    exactly one argument (the usage line) or when no repository is found
    (a line naming the path).  An exception that escapes it does so before
    anything is written.  When it returns, everything was written to
    standard output and the last line is the footer. *)
Theorem run_outcomes (discover_repository : string -> option string)
  (repository : string -> list Z) (local_date : Z -> result Date.t)
  (today : Date.t) (argv : list string) :
  let '(trace, how) :=
    run discover_repository repository local_date today argv in
  match how with
  | Exited code =>
      code = 1
      /\ written_to Stdout trace = EmptyString
      /\ ((List.length argv <> 2%nat
           /\ trace = [(Stderr, "usage: gitgraph.py DIRECTORY" +:+ nl)])
          \/ (List.length argv = 2%nat
              /\ discover_repository (nth 1 argv EmptyString) = None
              /\ trace = [(Stderr,
                           ("git repository not found in "
                            +:+ nth 1 argv EmptyString +:+ ", aborting.")
                           +:+ nl)]))
  | Uncaught e =>
      trace = [] /\ List.length argv = 2%nat
      /\ exists gitpath, discover_repository (nth 1 argv EmptyString)
                         = Some gitpath
  | Returned =>
      List.length argv = 2%nat
      /\ (exists gitpath, discover_repository (nth 1 argv EmptyString)
                          = Some gitpath)
      /\ Forall (fun w => fst w = Stdout) trace
      /\ nth_error trace (List.length trace - 1)
         = Some (Stdout, "</svg>" +:+ nl)
  end.
Proof.
  unfold run.
  destruct (Nat.eqb_spec (List.length argv) 2) as [Hlen | Hlen]; cbn [negb].
  2:{ split; [reflexivity |]. split; [reflexivity |]. left. now split. }
  destruct (discover_repository (nth 1 argv EmptyString)) as [gitpath |] eqn:Hd.
  2:{ split; [reflexivity |]. split; [reflexivity |]. right. now repeat split. }
  destruct (run_pipeline_outcomes local_date today (repository gitpath))
    as [(e & ->) | (trace & -> & Hall & _ & Hfoot)].
  - split; [reflexivity |]. split; [exact Hlen | now exists gitpath].
  - split; [exact Hlen |]. split; [now exists gitpath |]. now split.
Qed.

(** ** Commit times without a date *)

Lemma dates_of_raises (local_date : Z -> result Date.t) (l : list Z)
  (t : Z) (e : exn) :
  In t l -> local_date t = Raise e ->
  exists t' e', In t' l /\ local_date t' = Raise e'
                /\ dates_of local_date l = Raise e'.
Proof.
  induction l as [| x l IH]; intros Hin Ht; [destruct Hin |].
  cbn [dates_of].
  destruct (local_date x) as [d | ex] eqn:Hx.
  - destruct Hin as [-> | Hin]; [congruence |].
    destruct (IH Hin Ht) as (t' & e' & Hin' & Ht' & Hd).
    exists t', e'. split; [now right |]. split; [exact Ht' |].
    rewrite Hd. reflexivity.
  - exists x, ex. split; [now left |]. split; [exact Hx | reflexivity].
Qed.

(** X14: a commit whose time has no date, outside the years 1 to 9999,
    makes the aggregation raise: the exception is the one that the
    conversion raises for such a commit of the repository, no result is
    returned, and the pipeline writes nothing. *)
Theorem commit_without_date_raises (local_date : Z -> result Date.t)
  (today : Date.t) (repo : list Z) (t : Z) (e : exn) :
  In t repo -> local_date t = Raise e ->
  exists t' e',
    In t' repo /\ local_date t' = Raise e'
    /\ retrieve_repo_activity local_date today repo = Raise e'
    /\ run_pipeline local_date today repo = ([], Raise e').
Proof.
  intros Hin Ht.
  assert (Hin' : In t (repo_walk repo))
    by now apply (Permutation_in _ (Permutation_sym (repo_walk_perm repo))).
  destruct (dates_of_raises local_date (repo_walk repo) t e Hin' Ht)
    as (t' & e' & Hint' & Ht' & Hd).
  exists t', e'.
  split; [now apply (Permutation_in _ (repo_walk_perm repo)) |].
  split; [exact Ht' |].
  apply retrieve_repo_activity_raises; [| exact Hd].
  intros ->. destruct Hin.
Qed.

Lemma commit_without_date_raises_witness :
  utc_date 253402300800 = Raise ValueError
  /\ retrieve_repo_activity utc_date (Date.of_ymd 2024 1 10)
       [1704456000; 253402300800] = Raise ValueError
  /\ run_pipeline utc_date (Date.of_ymd 2024 1 10)
       [1704456000; 253402300800] = ([], Raise ValueError).
Proof.
  split; [reflexivity |].
  destruct (commit_without_date_raises utc_date (Date.of_ymd 2024 1 10)
              [1704456000; 253402300800] 253402300800 ValueError)
    as (t' & e' & Hin & Ht' & Hret & Hrun).
  - right. now left.
  - reflexivity.
  - destruct Hin as [<- | [<- | []]].
    + discriminate Ht'.
    + injection Ht' as <-. split; [exact Hret | exact Hrun].
Defined.
